(** * ripit: placeholder patterns for ripgrep

    A shallow embedding of [ripit.py]: the pattern translator
    ([Ripit._convert_pattern]), the search invoker ([Ripit.search]) and the
    two result aggregators ([Ripit.lines], [Ripit.count]), together with
    the Python built-ins they call ([str.replace], [str.split],
    [str.splitlines], [str.strip], [in], [int], [subprocess.run],
    [shutil.which]).

    A Python [str] is a sequence of Unicode code points; it is modelled as
    a list of code points, each an [N]. *)

From Stdlib Require Import List NArith ZArith Bool Lia String Ascii.
From Stdlib Require Import Permutation.
Import ListNotations.

Local Open Scope N_scope.

(* ================================================================== *)
(** * Part I: definitions *)
(* ================================================================== *)

(** ** Python strings *)

Module Py.

Definition char := N.
Definition str := list char.

(** An ASCII literal, as the list of its code points. *)
Definition lit (s : string) : str := map N_of_ascii (list_ascii_of_string s).
Arguments lit s%_string.

(** [s.startswith(prefix)] *)
Fixpoint startswith (s prefix : str) {struct prefix} : bool :=
  match prefix, s with
  | [], _ => true
  | p :: prefix', c :: s' => (c =? p) && startswith s' prefix'
  | _ :: _, [] => false
  end.

(** [sub in s] *)
Fixpoint contains (s sub : str) : bool :=
  startswith s sub
  || match s with
     | [] => false
     | _ :: s' => contains s' sub
     end.

(** The scan of [s.replace(old, new)] for a non-empty [old]: left to
    right, at each position where [old] starts emit [new] and jump over
    the occurrence ([skip] counts the characters of it still to jump),
    elsewhere copy the character. *)
Fixpoint replace_scan (old new : str) (skip : nat) (s : str) : str :=
  match s with
  | [] => []
  | c :: s' =>
      match skip with
      | S k => replace_scan old new k s'
      | O =>
          if startswith s old
          then new ++ replace_scan old new (List.length old - 1) s'
          else c :: replace_scan old new 0 s'
      end
  end.

(** [s.replace(old, new)]: every non-overlapping occurrence, leftmost
    first.  An empty [old] matches before every character and at the
    end. *)
Definition replace (s old new : str) : str :=
  match old with
  | [] => new ++ flat_map (fun c => c :: new) s
  | _ :: _ => replace_scan old new 0 s
  end.

(** The scan of [s.split(sep)]; [cur] holds the current field, reversed. *)
Fixpoint split_scan (sep : str) (skip : nat) (cur : str) (s : str)
  : list str :=
  match s with
  | [] => [rev cur]
  | c :: s' =>
      match skip with
      | S k => split_scan sep k cur s'
      | O =>
          if startswith s sep
          then rev cur :: split_scan sep (List.length sep - 1) [] s'
          else split_scan sep 0 (c :: cur) s'
      end
  end.

(** [s.split(sep)] for a non-empty separator (Python raises [ValueError]
    on an empty one; the program only splits on [":"]). *)
Definition split (s sep : str) : list str := split_scan sep 0 [] s.

(** [Py_UNICODE_ISLINEBREAK]: the characters [str.splitlines] breaks at. *)
Definition islinebreak (c : char) : bool :=
  ((10 <=? c) && (c <=? 13)) || ((28 <=? c) && (c <=? 30))
  || (c =? 133) || (c =? 8232) || (c =? 8233).

(** [Py_UNICODE_ISSPACE]: what [str.isspace] and [str.strip] call
    whitespace. *)
Definition isspace (c : char) : bool :=
  ((9 <=? c) && (c <=? 13)) || ((28 <=? c) && (c <=? 32))
  || (c =? 133) || (c =? 160) || (c =? 5760)
  || ((8192 <=? c) && (c <=? 8202))
  || (c =? 8232) || (c =? 8233) || (c =? 8239) || (c =? 8287)
  || (c =? 12288).

(** [s.splitlines()]: [cur] is the current line, reversed; a carriage
    return directly followed by a line feed is one boundary; no empty
    last line after a final boundary. *)
Fixpoint splitlines_scan (cur : str) (s : str) : list str :=
  match s with
  | [] =>
      match cur with
      | [] => []
      | _ :: _ => [rev cur]
      end
  | c :: s' =>
      if islinebreak c then
        rev cur ::
          match s' with
          | c' :: s'' =>
              if (c =? 13) && (c' =? 10)
              then splitlines_scan [] s''
              else splitlines_scan [] s'
          | [] => splitlines_scan [] s'
          end
      else splitlines_scan (c :: cur) s'
  end.

Definition splitlines (s : str) : list str := splitlines_scan [] s.

Fixpoint lstrip (s : str) : str :=
  match s with
  | [] => []
  | c :: s' => if isspace c then lstrip s' else s
  end.

Definition rstrip (s : str) : str := rev (lstrip (rev s)).

(** [s.strip()] *)
Definition strip (s : str) : str := rstrip (lstrip s).

(** Truth value of a string: non-empty. *)
Definition truthy (s : str) : bool :=
  match s with
  | [] => false
  | _ :: _ => true
  end.

(** *** [int(s)] on a string

    CPython first rewrites a non-ASCII string
    ([_PyUnicode_TransformDecimalAndSpaceToASCII]): Unicode whitespace
    becomes a space, a Unicode decimal digit its ASCII digit, any other
    character from 127 up a question mark; then [PyLong_FromString]
    reads, in base 10, ASCII whitespace, an optional sign, digits with
    single underscores between them, and ASCII whitespace up to the end.
    More than [max_str_digits] digits are refused.  Every failure is a
    [ValueError], modelled as [None]. *)

(** First code point of each run of ten decimal digits (Unicode 14.0,
    general category Nd). *)
Definition decimal_runs : list N :=
  [48; 1632; 1776; 1984; 2406; 2534; 2662; 2790; 2918; 3046; 3174; 3302;
   3430; 3558; 3664; 3792; 3872; 4160; 4240; 6112; 6160; 6470; 6608; 6784;
   6800; 6992; 7088; 7232; 7248; 42528; 43216; 43264; 43472; 43504; 43600;
   44016; 65296; 66720; 68912; 69734; 69872; 69942; 70096; 70384; 70736;
   70864; 71248; 71360; 71472; 71904; 72016; 72784; 73040; 73120; 92768;
   92864; 93008; 120782; 120792; 120802; 120812; 120822; 123200; 123632;
   125264; 130032].

(** [Py_UNICODE_TODECIMAL] *)
Definition todecimal (c : char) : option N :=
  match find (fun z => (z <=? c) && (c <? z + 10)) decimal_runs with
  | Some z => Some (c - z)
  | None => None
  end.

Definition transform_decimal_and_space (s : str) : str :=
  if forallb (fun c => c <? 128) s then s
  else
    map (fun c =>
           if c <? 127 then c
           else if isspace c then 32
           else match todecimal c with
                | Some d => 48 + d
                | None => 63
                end) s.

(** [Py_ISSPACE]: ASCII whitespace of the C locale. *)
Definition c_isspace (c : char) : bool :=
  (c =? 32) || ((9 <=? c) && (c <=? 13)).

Definition c_isdigit (c : char) : bool := (48 <=? c) && (c <=? 57).

Fixpoint skip_c_space (s : str) : str :=
  match s with
  | [] => []
  | c :: s' => if c_isspace c then skip_c_space s' else s
  end.

(** [sys.int_info.default_max_str_digits] *)
Definition max_str_digits : N := 4300.

(** The digit loop of [long_from_string_base]: [prev] is the previous
    character, [acc] the value read, [digits] the number of digits;
    returns these and the unread rest, or [None] on a doubled or trailing
    underscore. *)
Fixpoint scan_digits (prev : char) (acc : Z) (digits : N) (s : str)
  : option (Z * N * str) :=
  match s with
  | c :: s' =>
      if c =? 95 then
        if prev =? 95 then None else scan_digits c acc digits s'
      else if c_isdigit c then
        scan_digits c (10 * acc + Z.of_N (c - 48))%Z (digits + 1) s'
      else if prev =? 95 then None else Some (acc, digits, s)
  | [] => if prev =? 95 then None else Some (acc, digits, s)
  end.

Definition long_from_string (s : str) : option Z :=
  let s1 := skip_c_space s in
  let '(negative, s2) :=
    match s1 with
    | c :: r =>
        if c =? 43 then (false, r)
        else if c =? 45 then (true, r)
        else (false, s1)
    | [] => (false, s1)
    end in
  if startswith s2 [95] then None
  else
    match scan_digits 0 0%Z 0 s2 with
    | None => None
    | Some (n, digits, rest) =>
        if digits =? 0 then None
        else if max_str_digits <? digits then None
        else
          match skip_c_space rest with
          | [] => Some (if negative : bool then (- n)%Z else n)
          | _ :: _ => None
          end
    end.

(** [int(s)]: [Some n], or [None] for [ValueError]. *)
Definition int (s : str) : option Z :=
  long_from_string (transform_decimal_and_space s).

End Py.

Import Py.

(** ** Exceptions, processes and the method monad *)

Inductive exn : Type :=
| ImportError (msg : string)
| FileNotFoundError
| ValueError (msg : string)
| OtherError (name : string).
(** [OtherError] stands for whatever else [subprocess.run] lets through
    (a [PermissionError], a [UnicodeDecodeError] on the captured output,
    ...). *)

Inductive outcome (A : Type) : Type :=
| Returned (a : A)
| Raised (e : exn).
Arguments Returned {A} a.
Arguments Raised {A} e.

(** [subprocess.CompletedProcess] *)
Record CompletedProcess : Type := {
  returncode : Z;
  stdout : str;
  stderr : str
}.

(** [class Ripit]: its one attribute.  No method assigns to it or
    changes the list in place ([+] builds a new list), so an instance is
    a value that the methods read. *)
Record Ripit : Type := {
  default_args : list str
}.

Definition newline : string := String (ascii_of_nat 10) EmptyString.

Definition install_message : string :=
  ("ripgrep (rg) not found. Install it first:" ++ newline ++
   "  macOS: brew install ripgrep" ++ newline ++
   "  Ubuntu/Debian: apt install ripgrep" ++ newline ++
   "  Fedora: dnf install ripgrep" ++ newline ++
   "  Windows: choco install ripgrep" ++ newline ++
   "  Or visit: https://github.com/BurntSushi/ripgrep#installation")%string.

Definition not_in_path : string := "ripgrep (rg) not found in PATH".

Definition rg : str := lit "rg".
Definition backslash : char := 92.

(** [_convert_pattern(self, pattern)]; [self] is not used by the method. *)
Definition _convert_pattern (pattern : str) : str :=
  (* Escape literal parentheses *)
  let pattern := replace pattern (lit "(") (lit "\(") in
  let pattern := replace pattern (lit ")") (lit "\)") in
  (* Escape literal brackets *)
  let pattern := replace pattern (lit "[") (lit "\[") in
  let pattern := replace pattern (lit "]") (lit "\]") in
  (* Escape literal curly braces *)
  let pattern := replace pattern (lit "{") (lit "\{") in
  let pattern := replace pattern (lit "}") (lit "\}") in
  (* Convert ripit patterns to regex AFTER escaping *)
  let pattern := replace pattern (lit "<>") (lit ".*") in
  let pattern := replace pattern (lit "<name>") (lit "\w+") in
  let pattern := replace pattern (lit "<num>") (lit "\d+") in
  pattern.

(** The list comprehension of [lines]. *)
Definition nonblank_lines (output : str) : list str :=
  filter (fun line => truthy (strip line)) (splitlines output).

(** The body of the [for] loop of [count]: the new [total]. *)
Definition count_line (total : Z) (line : str) : Z :=
  if contains line (lit ":") then
    (* Format is "filename:count" *)
    let count_str := last (split line (lit ":")) [] in
    match int count_str with
    | Some n => (total + n)%Z
    | None => total
    end
  else total.

(** The loop of [count], from [total = 0]. *)
Definition sum_counts (output : str) : Z :=
  fold_left count_line (splitlines output) 0%Z.

(** One of the three methods' results. *)
Inductive value : Type :=
| Text (output : str)
| LineList (output_lines : list str)
| Total (n : Z).

Section Methods.

(** The outside world: what [shutil.which] finds and what running an
    argument vector does (the captured process, or the exception
    [subprocess.run] raises), each a function of an abstract state. *)
Context {World : Type}.
Variable shutil_which : str -> World -> option str.
Variable os_run : list str -> World -> outcome CompletedProcess * World.

(** The state a method runs in: the world, and the argument vectors
    handed to [subprocess.run] so far, oldest first. *)
Record machine : Type := {
  world : World;
  spawned : list (list str)
}.

Definition M (A : Type) : Type := machine -> outcome A * machine.

Definition ret {A} (a : A) : M A := fun m => (Returned a, m).

Definition raise {A} (e : exn) : M A := fun m => (Raised e, m).

(** The machine after [cmd] went to [subprocess.run] and left the
    world as [w]. *)
Definition ran (m : machine) (cmd : list str) (w : World) : machine :=
  {| world := w; spawned := spawned m ++ [cmd] |}.

Definition bind {A B} (c : M A) (k : A -> M B) : M B :=
  fun m =>
    match c m with
    | (Returned a, m') => k a m'
    | (Raised e, m') => (Raised e, m')
    end.

(** [try: c except: handler] *)
Definition try_except {A} (c : M A) (handler : exn -> M A) : M A :=
  fun m =>
    match c m with
    | (Returned a, m') => (Returned a, m')
    | (Raised e, m') => handler e m'
    end.

Notation "x <- c ;; k" := (bind c (fun x => k))
  (at level 61, c at next level, right associativity).
Notation "c ;;; k" := (bind c (fun _ => k))
  (at level 61, right associativity).

Definition has_nul (s : str) : bool := existsb (N.eqb 0) s.

(** [subprocess.run(cmd, capture_output=True, text=True, check=False)]:
    an argument with an embedded NUL is refused with [ValueError]
    before anything is executed; otherwise the world decides.  With
    [check=False] the exit status raises nothing. *)
Definition subprocess_run (cmd : list str) : M CompletedProcess :=
  fun m =>
    if existsb has_nul cmd
    then (Raised (ValueError "embedded null byte"), ran m cmd (world m))
    else
      let '(r, w) := os_run cmd (world m) in
      (r, ran m cmd w).

(** [_check_ripgrep()] *)
Definition _check_ripgrep : M unit :=
  fun m =>
    match shutil_which rg (world m) with
    | Some (_ :: _) => (Returned tt, m)
    | Some [] | None => (Raised (ImportError install_message), m)
    end.

(** [Ripit.__init__(self, default_args=None)]: [default_args or []]. *)
Definition __init__ (default_args : option (list str)) : M Ripit :=
  _check_ripgrep ;;;
  ret {| default_args :=
           match default_args with
           | Some (a :: l) => a :: l
           | Some [] | None => []
           end |}.

(** [Ripit.search(self, pattern, *args)] *)
Definition search (self : Ripit) (pattern : str) (args : list str)
  : M str :=
  let regex_pattern := _convert_pattern pattern in
  let cmd := [rg; regex_pattern] ++ default_args self ++ args in
  try_except
    (result <- subprocess_run cmd ;;
     ret (stdout result))
    (fun e =>
       match e with
       | FileNotFoundError => raise (ImportError not_in_path)
       | _ => raise e
       end).

(** [Ripit.lines(self, pattern, *args)] *)
Definition lines (self : Ripit) (pattern : str) (args : list str)
  : M (list str) :=
  output <- search self pattern args ;;
  ret (nonblank_lines output).

(** [Ripit.count(self, pattern, *args)] *)
Definition count (self : Ripit) (pattern : str) (args : list str)
  : M Z :=
  output <- search self pattern (lit "-c" :: args) ;;
  ret (sum_counts output).

(** *** Sequences of calls on one instance *)

Inductive call : Type :=
| CallSearch (pattern : str) (args : list str)
| CallLines (pattern : str) (args : list str)
| CallCount (pattern : str) (args : list str).

Definition call_pattern (c : call) : str :=
  match c with
  | CallSearch p _ | CallLines p _ | CallCount p _ => p
  end.

(** The extra arguments a call hands to [search]. *)
Definition call_extra (c : call) : list str :=
  match c with
  | CallSearch _ a | CallLines _ a => a
  | CallCount _ a => lit "-c" :: a
  end.

(** The argument vector a call makes [search] build. *)
Definition call_cmd (self : Ripit) (c : call) : list str :=
  [rg; _convert_pattern (call_pattern c)]
    ++ default_args self ++ call_extra c.

Definition invoke (self : Ripit) (c : call) : M value :=
  match c with
  | CallSearch p a => output <- search self p a ;; ret (Text output)
  | CallLines p a => l <- lines self p a ;; ret (LineList l)
  | CallCount p a => n <- count self p a ;; ret (Total n)
  end.

(** What a call returns when the tool printed [output]. *)
Definition call_result (c : call) (output : str) : value :=
  match c with
  | CallSearch _ _ => Text output
  | CallLines _ _ => LineList (nonblank_lines output)
  | CallCount _ _ => Total (sum_counts output)
  end.

(** The machine after a sequence of calls on [self]; a call's value, or
    the exception it raised (which the caller may catch), is dropped. *)
Definition session (self : Ripit) (cs : list call) (m : machine)
  : machine :=
  fold_left (fun m c => snd (invoke self c m)) cs m.

End Methods.

Arguments machine : clear implicits.
Arguments M : clear implicits.

(** ** Canned worlds, as a test double for the external tool *)

(** The tool is on the path and prints [out], with exit status [status]. *)
Definition which_found : str -> unit -> option str :=
  fun _ _ => Some (lit "/usr/bin/rg").

Definition which_missing : str -> unit -> option str :=
  fun _ _ => None.

Definition prints (status : Z) (out : str)
  : list str -> unit -> outcome CompletedProcess * unit :=
  fun _ w =>
    (Returned {| returncode := status; stdout := out; stderr := [] |}, w).

(** The executable vanished between construction and the search. *)
Definition vanished : list str -> unit -> outcome CompletedProcess * unit :=
  fun _ w => (Raised FileNotFoundError, w).

Definition boot : machine unit := {| world := tt; spawned := [] |}.

(** ** Vocabulary of the specification *)

(** The characters the translator escapes. *)
Definition is_bracket (c : char) : bool :=
  (c =? 40) || (c =? 41) || (c =? 91) || (c =? 93) || (c =? 123)
  || (c =? 125).

(** A backslash before a bracket, any other character as it is. *)
Definition escape_char (c : char) : str :=
  if is_bracket c then [backslash; c] else [c].

Definition bracket_free (s : str) : bool := negb (existsb is_bracket s).

(** One left-to-right pass that puts a backslash before every character
    of [set]. *)
Definition prefix_backslash (set : str) (s : str) : str :=
  flat_map (fun c => if existsb (N.eqb c) set then [backslash; c] else [c]) s.

(** The six steps of the specification, in its order. *)
Definition translate_steps (pattern : str) : str :=
  let step1 := prefix_backslash (lit "()") pattern in
  let step2 := prefix_backslash (lit "[]") step1 in
  let step3 := prefix_backslash (lit "{}") step2 in
  let step4 := replace step3 (lit "<>") (lit ".*") in
  let step5 := replace step4 (lit "<name>") (lit "\w+") in
  let step6 := replace step5 (lit "<num>") (lit "\d+") in
  step6.

(** Every bracket of [s] stands directly after a backslash; [prev] is the
    character before [s] (0 at the start of the string). *)
Fixpoint brackets_prefixed (prev : char) (s : str) : bool :=
  match s with
  | [] => true
  | c :: s' =>
      (negb (is_bracket c) || (prev =? backslash))
      && brackets_prefixed c s'
  end.

(** How a regex reads escapes, left to right: a backslash that is not
    itself escaped escapes the next character.  [escaped] tells whether
    the character at the head of [s] is escaped.  [no_bare_bracket] holds
    when every bracket of [s] is escaped. *)
Fixpoint no_bare_bracket (escaped : bool) (s : str) : bool :=
  match s with
  | [] => true
  | c :: s' =>
      if escaped then no_bare_bracket false s'
      else if c =? backslash then no_bare_bracket true s'
      else negb (is_bracket c) && no_bare_bracket false s'
  end.

(** Dually, [no_escaped_bracket] holds when no bracket of [s] is escaped. *)
Fixpoint no_escaped_bracket (escaped : bool) (s : str) : bool :=
  match s with
  | [] => true
  | c :: s' =>
      if escaped then negb (is_bracket c) && no_escaped_bracket false s'
      else if c =? backslash then no_escaped_bracket true s'
      else no_escaped_bracket false s'
  end.

Definition LF : char := 10.

(** The outputs the specification tries the aggregators on. *)
Definition lines_sample : str :=
  lit "a" ++ [LF; LF] ++ lit "  " ++ [LF] ++ lit "b" ++ [LF].

Definition count_sample : str :=
  lit "file1.py:3" ++ [LF] ++ lit "file2.py:5" ++ [LF].

Definition count_sample_malformed : str :=
  lit "file1.py:abc" ++ [LF] ++ lit "file2.py:5" ++ [LF].

(** Count output for a single searched file: no path, no colon. *)
Definition count_sample_bare : str := lit "42" ++ [LF].

(** A line that is empty or holds only whitespace. *)
Definition blank (line : str) : bool := forallb isspace line.

(** The last colon-delimited field of a line: what follows its last
    colon, the whole line where it has none. *)
Fixpoint last_field (line : str) : str :=
  match line with
  | [] => []
  | c :: rest =>
      if contains rest (lit ":") then last_field rest
      else if c =? 58 then rest
      else line
  end.

(** What a line adds to the total when its last field is parsed. *)
Definition field_value (line : str) : Z :=
  match int (last_field line) with
  | Some n => n
  | None => 0%Z
  end.

Fixpoint sum_Z (l : list Z) : Z :=
  match l with
  | [] => 0%Z
  | x :: l' => (x + sum_Z l')%Z
  end.

(** The total over all lines, each line's last field parsed. *)
Definition total_of_last_fields (output_lines : list str) : Z :=
  sum_Z (map field_value output_lines).

(** The total over the lines that hold a colon. *)
Definition total_of_count_lines (output_lines : list str) : Z :=
  sum_Z (map field_value
           (filter (fun line => contains line (lit ":")) output_lines)).

(** ** The module-level functions and the command line *)

(** [search], [lines] and [count] of the module: each builds a fresh
    [Ripit()] and calls its method. *)
Module Quick.

Section Functions.

Context {World : Type}.
Variable shutil_which : str -> World -> option str.
Variable os_run : list str -> World -> outcome CompletedProcess * World.

Definition search (pattern : str) (args : list str) : M World str :=
  bind (__init__ shutil_which None)
    (fun self => search os_run self pattern args).

Definition lines (pattern : str) (args : list str) : M World (list str) :=
  bind (__init__ shutil_which None)
    (fun self => lines os_run self pattern args).

Definition count (pattern : str) (args : list str) : M World Z :=
  bind (__init__ shutil_which None)
    (fun self => count os_run self pattern args).

End Functions.

End Quick.

(** What the program wrote to its two streams. *)
Record console : Type := {
  to_stdout : str;
  to_stderr : str
}.

(** How the script ends: an exit status, or an exception nobody caught
    (the interpreter then prints the traceback and exits with 1). *)
Inductive ending : Type :=
| Exited (status : Z)
| Uncaught (e : exn).

Definition usage : string := "Usage: ripit <pattern> [ripgrep args...]".

Section CommandLine.

Context {World : Type}.
Variable shutil_which : str -> World -> option str.
Variable os_run : list str -> World -> outcome CompletedProcess * World.

(** The [if __name__ == '__main__':] block, run on [sys.argv];
    [print] is taken to succeed. *)
Definition main_block (argv : list str) (m : machine World)
  : ending * console * machine World :=
  match argv with
  | _ :: pattern :: args =>
      match Quick.search shutil_which os_run pattern args m with
      | (Returned output, m') =>
          (Exited 0, {| to_stdout := output; to_stderr := [] |}, m')
      | (Raised e, m') =>
          (Uncaught e, {| to_stdout := []; to_stderr := [] |}, m')
      end
  | _ =>
      (Exited 1, {| to_stdout := []; to_stderr := lit usage ++ [LF] |}, m)
  end.

End CommandLine.

(** ** Vocabulary of the further properties *)

(** A pattern as its author thinks of it: literal text and
    placeholders. *)
Inductive piece : Type :=
| Literal (text : str)
| Anything
| Identifier
| Number.

(** What is typed for a piece. *)
Definition typed (p : piece) : str :=
  match p with
  | Literal text => text
  | Anything => lit "<>"
  | Identifier => lit "<name>"
  | Number => lit "<num>"
  end.

(** The regex meant by a piece: the text with its brackets escaped, or
    the placeholder's regex. *)
Definition meant (p : piece) : str :=
  match p with
  | Literal text => prefix_backslash (lit "()[]{}") text
  | Anything => lit ".*"
  | Identifier => lit "\w+"
  | Number => lit "\d+"
  end.

(** A literal text that opens no placeholder: it holds no [<]. *)
Definition opens_nothing (p : piece) : bool :=
  match p with
  | Literal text => negb (existsb (N.eqb 60) text)
  | _ => true
  end.

(** Lines, each ended by a line feed. *)
Definition unlines (l : list str) : str :=
  flat_map (fun line => line ++ [LF]) l.

(** A line free of line boundaries. *)
Definition one_line (line : str) : bool := negb (existsb islinebreak line).

(** A decimal numeral as the list of its digits' values, the first
    digit first; its text and its value. *)
Definition digit_str (ds : list N) : str := map (fun d => 48 + d) ds.

Definition digits_value (ds : list N) : Z :=
  fold_left (fun acc d => (10 * acc + Z.of_N d)%Z) ds 0%Z.

(** At least one digit, each below ten, no more of them than [int]
    takes. *)
Definition numeral (ds : list N) : bool :=
  negb (N.of_nat (List.length ds) =? 0)
  && forallb (fun d => d <? 10) ds
  && (N.of_nat (List.length ds) <=? max_str_digits).

(** A line of count output: path, colon, count. *)
Definition count_record (r : str * list N) : str :=
  fst r ++ lit ":" ++ digit_str (snd r).

(** No character of [a] occurs in [b]. *)
Definition apart (a b : str) : bool :=
  forallb (fun c => negb (existsb (N.eqb c) b)) a.


(* ================================================================== *)
(** * Part II: theorems *)
(* ================================================================== *)

(** ** [str.startswith], [in] and [str.replace] *)

Section Replace.

Variables old new : str.

Lemma startswith_app (r : str) : startswith (old ++ r) old = true.
Proof.
  induction old as [|p t IH]; simpl; [reflexivity|].
  now rewrite N.eqb_refl, IH.
Qed.

Lemma startswith_split :
  forall s, startswith s old = true -> s = old ++ skipn (List.length old) s.
Proof.
  induction old as [|p t IH]; intros s H; [reflexivity|].
  destruct s as [|c s]; simpl in H; [discriminate|].
  apply andb_prop in H as [Hc Ht]. apply N.eqb_eq in Hc. subst c.
  simpl. f_equal. now apply IH.
Qed.

Lemma replace_scan_skip :
  forall s k, replace_scan old new k s = replace_scan old new 0 (skipn k s).
Proof.
  induction s as [|c s IH]; intros [|k]; try reflexivity.
  simpl. apply IH.
Qed.

Lemma replace_scan_miss (c : char) (s : str) :
  startswith (c :: s) old = false ->
  replace_scan old new 0 (c :: s) = c :: replace_scan old new 0 s.
Proof. intros H. cbn [replace_scan]. now rewrite H. Qed.

Hypothesis old_nonempty : old <> [].

Lemma replace_scan_hit (r : str) :
  replace_scan old new 0 (old ++ r) = new ++ replace_scan old new 0 r.
Proof.
  pose proof (startswith_app r) as H.
  destruct old as [|p t] eqn:E; [congruence|].
  rewrite <- E in *.
  assert (Hs : old ++ r = p :: (t ++ r)) by now rewrite E.
  rewrite Hs in *. cbn [replace_scan]. rewrite H. f_equal.
  rewrite replace_scan_skip. f_equal.
  rewrite E. simpl. rewrite Nat.sub_0_r.
  rewrite skipn_app, skipn_all, Nat.sub_diag. reflexivity.
Qed.

Lemma replace_nonempty (s : str) :
  replace s old new = replace_scan old new 0 s.
Proof. unfold replace. destruct old; [congruence | reflexivity]. Qed.

(** Induction along the scan: at each position the occurrence of [old]
    is replaced and jumped over, or one character is copied. *)
Lemma replace_scan_ind (P : str -> str -> Prop) :
  P [] [] ->
  (forall r, P r (replace_scan old new 0 r) ->
             P (old ++ r) (new ++ replace_scan old new 0 r)) ->
  (forall c s, startswith (c :: s) old = false ->
               P s (replace_scan old new 0 s) ->
               P (c :: s) (c :: replace_scan old new 0 s)) ->
  forall s, P s (replace_scan old new 0 s).
Proof.
  intros Hnil Hhit Hmiss s.
  remember (List.length s) as n eqn:Hn.
  revert s Hn. induction n as [n IH] using lt_wf_ind. intros s Hn.
  destruct s as [|c s]; [exact Hnil|].
  destruct (startswith (c :: s) old) eqn:E.
  - apply startswith_split in E. rewrite E, replace_scan_hit.
    apply Hhit. eapply IH; [|reflexivity]. subst n.
    rewrite length_skipn. destruct old; [congruence|]. simpl. lia.
  - rewrite (replace_scan_miss _ _ E). apply Hmiss; [exact E|].
    eapply IH; [|reflexivity]. subst n. simpl. lia.
Qed.

End Replace.

Lemma contains_unfold (s sub : str) :
  contains s sub
  = startswith s sub
    || match s with
       | [] => false
       | _ :: s' => contains s' sub
       end.
Proof. destruct s; reflexivity. Qed.

(** [contains] finds exactly the occurrences of [sub] as a substring. *)
Lemma contains_spec (sub : str) :
  forall s, contains s sub = true <-> exists a b, s = a ++ sub ++ b.
Proof.
  intros s. split.
  - induction s as [|c s IH]; rewrite contains_unfold; intros H;
      apply orb_prop in H as [H|H].
    + exists [], (skipn (List.length sub) []). now apply startswith_split.
    + discriminate.
    + exists [], (skipn (List.length sub) (c :: s)).
      now apply startswith_split.
    + destruct (IH H) as [a [b ->]]. now exists (c :: a), b.
  - intros [a [b ->]]. induction a as [|c a IH]; rewrite contains_unfold.
    + cbn [app]. now rewrite startswith_app.
    + cbn [app]. rewrite IH. apply orb_true_r.
Qed.

(** Where [old] does not occur, [replace] changes nothing. *)
Lemma replace_absent (old new : str) :
  forall s, contains s old = false -> replace s old new = s.
Proof.
  intros s H. unfold replace. destruct old as [|p t].
  - destruct s; discriminate.
  - induction s as [|c s IH]; [reflexivity|].
    cbn [contains] in H. apply orb_false_elim in H as [Hh Ht].
    rewrite replace_scan_miss by exact Hh. f_equal. now apply IH.
Qed.

(** Replacing one character is a map over the characters. *)
Lemma replace_char (c : char) (new : str) :
  forall s,
    replace s [c] new = flat_map (fun x => if x =? c then new else [x]) s.
Proof.
  unfold replace. induction s as [|x s IH]; [reflexivity|].
  cbn [replace_scan startswith List.length Nat.sub flat_map].
  rewrite andb_true_r. destruct (x =? c); simpl; now rewrite IH.
Qed.

(** ** The translator *)

Ltac char_cases c :=
  destruct (N.eqb_spec c 40); [subst c; reflexivity|];
  destruct (N.eqb_spec c 41); [subst c; reflexivity|];
  destruct (N.eqb_spec c 91); [subst c; reflexivity|];
  destruct (N.eqb_spec c 93); [subst c; reflexivity|];
  destruct (N.eqb_spec c 123); [subst c; reflexivity|];
  destruct (N.eqb_spec c 125); [subst c; reflexivity|].

Ltac eqb_false :=
  repeat match goal with
         | H : ?c <> ?k |- context [?c =? ?k] =>
             rewrite (proj2 (N.eqb_neq c k) H)
         end.

Lemma flat_map_compose (f g : char -> str) :
  forall s, flat_map f (flat_map g s) = flat_map (fun c => flat_map f (g c)) s.
Proof.
  induction s as [|c s IH]; [reflexivity|].
  simpl. now rewrite flat_map_app, IH.
Qed.

(** The six single-character replacements amount to one pass that
    escapes each bracket once. *)
Lemma escapes_one_pass (s : str) :
  replace (replace (replace (replace (replace (replace s
    (lit "(") (lit "\(")) (lit ")") (lit "\)"))
    (lit "[") (lit "\[")) (lit "]") (lit "\]"))
    (lit "{") (lit "\{")) (lit "}") (lit "\}")
  = flat_map escape_char s.
Proof.
  change (lit "(") with [40]. change (lit ")") with [41].
  change (lit "[") with [91]. change (lit "]") with [93].
  change (lit "{") with [123]. change (lit "}") with [125].
  rewrite !replace_char, !flat_map_compose.
  apply flat_map_ext. intros c. unfold escape_char, is_bracket.
  char_cases c. repeat (progress (cbn [flat_map app]; eqb_false)).
  reflexivity.
Qed.

(** So do the three escaping steps of the specification. *)
Lemma steps_one_pass (s : str) :
  prefix_backslash (lit "{}")
    (prefix_backslash (lit "[]") (prefix_backslash (lit "()") s))
  = flat_map escape_char s.
Proof.
  change (lit "()") with [40; 41]. change (lit "[]") with [91; 93].
  change (lit "{}") with [123; 125].
  unfold prefix_backslash. rewrite !flat_map_compose.
  apply flat_map_ext. intros c. unfold escape_char, is_bracket.
  char_cases c.
  repeat (progress (cbn [flat_map app existsb orb]; eqb_false)).
  reflexivity.
Qed.

Lemma _convert_pattern_eq (s : str) :
  _convert_pattern s
  = replace (replace (replace (flat_map escape_char s)
      (lit "<>") (lit ".*")) (lit "<name>") (lit "\w+"))
      (lit "<num>") (lit "\d+").
Proof. unfold _convert_pattern. now rewrite escapes_one_pass. Qed.

(** C1. For every pattern, [_convert_pattern] returns what the six steps
    of the specification give, applied in its order: a backslash before
    every parenthesis, then before every square bracket, then before
    every curly brace, then [<>] replaced by [.*], then [<name>] by
    [\w+], then [<num>] by [\d+].  In particular [<>] becomes [.*] and
    [<num>] becomes [\d+]. *)
Theorem convert_pattern_six_steps :
  (forall pattern, _convert_pattern pattern = translate_steps pattern)
  /\ _convert_pattern (lit "<>") = lit ".*"
  /\ _convert_pattern (lit "<num>") = lit "\d+".
Proof.
  split; [|split; reflexivity].
  intros s. rewrite _convert_pattern_eq. unfold translate_steps.
  now rewrite steps_one_pass.
Qed.

(** C3, as the specification words it: the result would be [def \w+():],
    its parentheses bare.  It is not. *)
Lemma convert_def_name_counterexample :
  _convert_pattern (lit "def <name>():") <> lit "def \w+():".
Proof. vm_compute. discriminate. Qed.

(** C3, amended. Translating [def <name>():] yields [def \w+\(\):]: the
    name placeholder becomes [\w+] and each parenthesis carries its
    backslash. *)
Theorem convert_def_name :
  _convert_pattern (lit "def <name>():") = lit "def \w+\(\):".
Proof. reflexivity. Qed.

(** C8. The translator is not idempotent on strings that hold a bracket:
    translating ["("] twice differs from translating it once. *)
Theorem convert_pattern_not_idempotent :
  exists s, existsb is_bracket s = true
            /\ _convert_pattern (_convert_pattern s) <> _convert_pattern s.
Proof.
  exists (lit "("). split; [reflexivity|]. vm_compute. discriminate.
Qed.

Lemma escape_free (s : str) :
  existsb is_bracket s = false -> flat_map escape_char s = s.
Proof.
  induction s as [|c s IH]; [reflexivity|]. cbn [existsb flat_map].
  intros H. apply orb_false_elim in H as [Hc Hs].
  rewrite (IH Hs). unfold escape_char. now rewrite Hc.
Qed.

(** C10. A pattern that holds no bracket and no occurrence of [<>],
    [<name>] or [<num>] is returned unchanged; so is any other text in
    angle brackets, such as [<foo>]. *)
Theorem convert_pattern_passes_through (pattern : str) :
  existsb is_bracket pattern = false ->
  contains pattern (lit "<>") = false ->
  contains pattern (lit "<name>") = false ->
  contains pattern (lit "<num>") = false ->
  _convert_pattern pattern = pattern.
Proof.
  intros Hb H1 H2 H3. rewrite _convert_pattern_eq.
  rewrite (escape_free _ Hb).
  rewrite (replace_absent _ _ _ H1), (replace_absent _ _ _ H2).
  now apply replace_absent.
Qed.

(** C10 at work on [<foo>]. *)
Lemma convert_pattern_passes_through_witness :
  _convert_pattern (lit "<foo>") = lit "<foo>".
Proof.
  apply (convert_pattern_passes_through (lit "<foo>")); reflexivity.
Defined.

(** ** Escaped brackets in the translator's output *)

Lemma bracket_not_backslash (c : char) :
  is_bracket c = true -> (c =? backslash) = false.
Proof.
  unfold is_bracket, backslash. intros H.
  destruct (N.eqb_spec c 92) as [->|]; [discriminate H | reflexivity].
Qed.

Lemma last_default (t : str) (d d' : char) :
  t <> [] -> last t d = last t d'.
Proof.
  induction t as [|c t IH]; [congruence|]. intros _.
  destruct t as [|c' t]; [reflexivity|].
  change (last (c' :: t) d = last (c' :: t) d'). apply IH. discriminate.
Qed.

(** *** Every bracket directly after a backslash *)

Lemma brackets_prefixed_app (a b : str) :
  forall p, brackets_prefixed p (a ++ b)
            = brackets_prefixed p a && brackets_prefixed (last a p) b.
Proof.
  induction a as [|c a IH]; intros p; [reflexivity|].
  cbn [app brackets_prefixed]. rewrite IH, andb_assoc. do 2 f_equal.
  destruct a as [|c' a]; [reflexivity|].
  change (last (c' :: a) c = last (c' :: a) p).
  apply last_default. discriminate.
Qed.

Lemma brackets_prefixed_free (t : str) (p : char) :
  bracket_free t = true -> brackets_prefixed p t = true.
Proof.
  unfold bracket_free. revert p.
  induction t as [|c t IH]; intros p H; [reflexivity|].
  cbn [existsb] in H. rewrite negb_orb in H. apply andb_prop in H as [Hc Ht].
  cbn [brackets_prefixed]. rewrite Hc. now rewrite IH.
Qed.

(** After a character other than a backslash no bracket may follow, so
    what comes before does not matter. *)
Lemma brackets_prefixed_after (p q : char) (r : str) :
  p <> backslash ->
  brackets_prefixed p r = true -> brackets_prefixed q r = true.
Proof.
  intros Hp. destruct r as [|c r]; [reflexivity|].
  cbn [brackets_prefixed]. rewrite (proj2 (N.eqb_neq _ _) Hp), orb_false_r.
  intros H. apply andb_prop in H as [Hc Hr]. now rewrite Hc, Hr.
Qed.

Lemma brackets_prefixed_escape (s : str) :
  forall p, brackets_prefixed p (flat_map escape_char s) = true.
Proof.
  induction s as [|c s IH]; intros p; [reflexivity|].
  cbn [flat_map]. unfold escape_char at 1.
  destruct (is_bracket c) eqn:E; cbn [app brackets_prefixed].
  - rewrite N.eqb_refl, orb_true_r, IH. reflexivity.
  - now rewrite E, IH.
Qed.

Section Tokens.

(** A placeholder [old] and its regex [new]: neither holds a bracket,
    neither is empty, neither ends in a backslash. *)
Variables old new : str.
Hypothesis old_free : bracket_free old = true.
Hypothesis new_free : bracket_free new = true.
Hypothesis old_last : last old backslash <> backslash.
Hypothesis new_last : last new backslash <> backslash.

Lemma old_nonempty : old <> [].
Proof. intros E. rewrite E in old_last. now apply old_last. Qed.

Lemma brackets_prefixed_replace :
  forall s p, brackets_prefixed p s = true ->
              brackets_prefixed p (replace s old new) = true.
Proof.
  intros s. rewrite (replace_nonempty old new old_nonempty).
  apply (replace_scan_ind old new old_nonempty
           (fun s r => forall p, brackets_prefixed p s = true ->
                                 brackets_prefixed p r = true)).
  - reflexivity.
  - intros r IH p H. rewrite brackets_prefixed_app in *.
    apply andb_prop in H as [_ Hr].
    rewrite (brackets_prefixed_free _ _ new_free). cbn [andb].
    rewrite (last_default old p backslash old_nonempty) in Hr.
    apply (brackets_prefixed_after _ _ _ old_last), IH, Hr.
  - intros c s' _ IH p H. cbn [brackets_prefixed] in *.
    apply andb_prop in H as [Hc Hs]. now rewrite Hc, IH.
Qed.

(** Reading a bracket-free text that does not end in a backslash
    leaves the reader unescaped, whatever its state before. *)
Lemma no_bare_bracket_through (t r : str) :
  bracket_free t = true -> last t backslash <> backslash ->
  forall e, no_bare_bracket e (t ++ r) = no_bare_bracket false r.
Proof.
  unfold bracket_free.
  induction t as [|c t IH]; intros Hf Hl e; [now destruct Hl|].
  cbn [existsb] in Hf. rewrite negb_orb in Hf.
  apply andb_prop in Hf as [Hc Ht].
  destruct t as [|c' t].
  - cbn [last] in Hl. cbn [app no_bare_bracket].
    rewrite (proj2 (N.eqb_neq _ _) Hl), Hc. now destruct e.
  - change (last (c' :: t) backslash <> backslash) in Hl.
    assert (IH' := fun e => IH Ht Hl e).
    remember (c' :: t) as t' eqn:Et'. clear Et' IH.
    cbn [app no_bare_bracket].
    destruct e; [apply IH'|].
    destruct (c =? backslash); [apply IH'|]. rewrite Hc. apply IH'.
Qed.

Lemma no_bare_bracket_replace :
  forall s e, no_bare_bracket e (replace s old new) = no_bare_bracket e s.
Proof.
  intros s. rewrite (replace_nonempty old new old_nonempty).
  apply (replace_scan_ind old new old_nonempty
           (fun s r => forall e, no_bare_bracket e r = no_bare_bracket e s)).
  - reflexivity.
  - intros r IH e.
    rewrite !no_bare_bracket_through by assumption. apply IH.
  - intros c s' _ IH e. cbn [no_bare_bracket]. now rewrite !IH.
Qed.

End Tokens.

Example bare_bracket : no_bare_bracket false (lit "f(x)") = false.
Proof. reflexivity. Qed.

Example escaped_bracket : no_bare_bracket false (lit "f\(x\)") = true.
Proof. reflexivity. Qed.

(** Escaping flips every bracket: a bare one becomes escaped, an escaped
    one bare (its new backslash is taken by the one before it). *)
Lemma no_bare_bracket_escape (s : str) :
  forall e, no_bare_bracket e (flat_map escape_char s)
            = no_escaped_bracket e s.
Proof.
  induction s as [|c s IH]; intros e; [reflexivity|].
  cbn [flat_map no_escaped_bracket]. unfold escape_char at 1.
  destruct (is_bracket c) eqn:E; cbn [app no_bare_bracket].
  - rewrite (bracket_not_backslash _ E), E.
    destruct e; cbn [negb andb]; [reflexivity|].
    rewrite N.eqb_refl. apply IH.
  - rewrite E. cbn [negb andb]. destruct e; [apply IH|].
    destruct (c =? backslash); apply IH.
Qed.

Lemma no_escaped_bracket_plain (s : str) :
  existsb (N.eqb backslash) s = false -> no_escaped_bracket false s = true.
Proof.
  induction s as [|c s IH]; [reflexivity|]. cbn [existsb no_escaped_bracket].
  intros H. apply orb_false_elim in H as [Hc Hs].
  rewrite N.eqb_sym, Hc. now apply IH.
Qed.

(** C4, as the specification words it: no bracket of the output would be
    left unescaped.  The pattern [\(] becomes [\\(], where the first
    backslash escapes the second and the parenthesis is bare. *)
Lemma convert_pattern_escapes_brackets_counterexample :
  no_bare_bracket false (_convert_pattern (lit "\(")) = false.
Proof. reflexivity. Qed.

(** C4, amended. For every pattern, each bracket of the translator's
    output stands directly after a backslash; the output has no unescaped
    bracket exactly when the pattern has no bracket that a backslash
    already escaped; so it has none for a pattern without backslashes. *)
Theorem convert_pattern_escapes_brackets (pattern : str) :
  brackets_prefixed 0 (_convert_pattern pattern) = true
  /\ no_bare_bracket false (_convert_pattern pattern)
     = no_escaped_bracket false pattern
  /\ (existsb (N.eqb backslash) pattern = false ->
      no_bare_bracket false (_convert_pattern pattern) = true).
Proof.
  rewrite _convert_pattern_eq.
  assert (Heq : no_bare_bracket false
                  (replace (replace (replace (flat_map escape_char pattern)
                     (lit "<>") (lit ".*")) (lit "<name>") (lit "\w+"))
                     (lit "<num>") (lit "\d+"))
                = no_escaped_bracket false pattern).
  { rewrite !no_bare_bracket_replace;
      try reflexivity; try (vm_compute; discriminate).
    apply no_bare_bracket_escape. }
  split; [|split].
  - repeat (apply brackets_prefixed_replace;
            try reflexivity; try (vm_compute; discriminate)).
    apply brackets_prefixed_escape.
  - exact Heq.
  - intros H. rewrite Heq. now apply no_escaped_bracket_plain.
Qed.

(** C4 at work on a pattern without backslashes. *)
Lemma convert_pattern_escapes_brackets_witness :
  brackets_prefixed 0 (_convert_pattern (lit "f(<name>[<num>])")) = true
  /\ no_bare_bracket false (_convert_pattern (lit "f(<name>[<num>])")) = true.
Proof.
  destruct (convert_pattern_escapes_brackets (lit "f(<name>[<num>])"))
    as [H1 [_ H3]].
  split; [exact H1 | apply H3; reflexivity].
Defined.

(** ** The line listing *)

Lemma truthy_lstrip (s : str) : truthy (lstrip s) = negb (blank s).
Proof.
  unfold blank. induction s as [|c s IH]; [reflexivity|].
  cbn [lstrip forallb]. destruct (isspace c); [exact IH | reflexivity].
Qed.

Lemma blank_lstrip (s : str) : blank (lstrip s) = blank s.
Proof.
  unfold blank. induction s as [|c s IH]; [reflexivity|].
  cbn [lstrip]. destruct (isspace c) eqn:E; [|reflexivity].
  cbn [forallb]. now rewrite E.
Qed.

Lemma blank_rev (s : str) : blank (rev s) = blank s.
Proof.
  unfold blank. induction s as [|c s IH]; [reflexivity|].
  cbn [rev forallb]. rewrite forallb_app, IH. cbn [forallb].
  rewrite andb_true_r. apply andb_comm.
Qed.

Lemma truthy_rev (s : str) : truthy (rev s) = truthy s.
Proof.
  destruct s as [|c s]; [reflexivity|]. cbn [rev truthy].
  now destruct (rev s).
Qed.

(** A line survives [if line.strip()] exactly when it is not blank. *)
Lemma truthy_strip (line : str) : truthy (strip line) = negb (blank line).
Proof.
  unfold strip, rstrip.
  now rewrite truthy_rev, truthy_lstrip, blank_rev, blank_lstrip.
Qed.

Lemma nonblank_lines_filter (output : str) :
  nonblank_lines output
  = filter (fun line => negb (blank line)) (splitlines output).
Proof.
  unfold nonblank_lines. apply filter_ext. intros l. apply truthy_strip.
Qed.

(** ** The count *)

Lemma split_scan_nonempty (sep : str) :
  forall s skip cur, split_scan sep skip cur s <> [].
Proof.
  induction s as [|c s IH]; intros skip cur; [discriminate|].
  cbn [split_scan]. destruct skip; [|apply IH].
  destruct (startswith (c :: s) sep); [discriminate | apply IH].
Qed.

Lemma last_cons (x : str) (l : list str) (d : str) :
  l <> [] -> last (x :: l) d = last l d.
Proof. destruct l; [congruence | reflexivity]. Qed.

Lemma contains_colon_cons (c : char) (s : str) :
  contains (c :: s) (lit ":") = (c =? 58) || contains s (lit ":").
Proof.
  change (lit ":") with [58]. cbn [contains startswith].
  now rewrite andb_true_r.
Qed.

(** The last element of [line.split(":")], with the field under way in
    [cur]. *)
Lemma last_split_scan :
  forall s cur,
    last (split_scan (lit ":") 0 cur s) []
    = if contains s (lit ":") then last_field s else rev cur ++ s.
Proof.
  induction s as [|c s IH]; intros cur.
  - cbn. now rewrite app_nil_r.
  - rewrite contains_colon_cons. change (lit ":") with [58] in *.
    cbn [split_scan startswith List.length Nat.sub last_field].
    rewrite andb_true_r. change (lit ":") with [58].
    destruct (c =? 58) eqn:E.
    + rewrite last_cons by apply split_scan_nonempty.
      rewrite IH. cbn [orb rev app]. reflexivity.
    + rewrite IH. cbn [orb rev].
      destruct (contains s [58]); [reflexivity|].
      now rewrite <- app_assoc.
Qed.

Lemma last_field_whole (line : str) :
  contains line (lit ":") = false -> last_field line = line.
Proof.
  destruct line as [|c s]; [reflexivity|].
  rewrite contains_colon_cons. intros H.
  apply orb_false_elim in H as [Hc Hs].
  cbn [last_field]. now rewrite Hs, Hc.
Qed.

(** [line.split(":")[-1]] is the last colon-delimited field. *)
Lemma last_split (line : str) :
  last (split line (lit ":")) [] = last_field line.
Proof.
  unfold split. rewrite last_split_scan.
  destruct (contains line (lit ":")) eqn:E; [reflexivity|].
  now rewrite last_field_whole.
Qed.

(** [last_field] is what its name says: the line ends with a colon and
    then the field, and the field holds no colon. *)
Lemma last_field_spec (line : str) :
  contains line (lit ":") = true ->
  exists before, line = before ++ lit ":" ++ last_field line
                 /\ contains (last_field line) (lit ":") = false.
Proof.
  induction line as [|c s IH]; [discriminate|].
  rewrite contains_colon_cons. intros H. cbn [last_field].
  destruct (contains s (lit ":")) eqn:Es.
  - destruct (IH eq_refl) as [before [Hl Hf]].
    exists (c :: before). split; [|exact Hf].
    cbn [app]. f_equal. exact Hl.
  - rewrite orb_false_r in H. rewrite H. apply N.eqb_eq in H. subst c.
    exists []. split; [reflexivity | exact Es].
Qed.

Lemma count_line_eq (total : Z) (line : str) :
  count_line total line
  = (total + if contains line (lit ":") then field_value line else 0)%Z.
Proof.
  unfold count_line, field_value. rewrite last_split.
  destruct (contains line (lit ":")); [|lia].
  destruct (int (last_field line)); lia.
Qed.

(** The running total of the loop is the sum over the lines that hold a
    colon. *)
Lemma fold_count_line (output_lines : list str) :
  forall total,
    fold_left count_line output_lines total
    = (total + total_of_count_lines output_lines)%Z.
Proof.
  unfold total_of_count_lines.
  induction output_lines as [|l ls IH]; intros total; cbn [fold_left].
  - cbn. lia.
  - rewrite IH, count_line_eq. cbn [filter].
    destruct (contains l (lit ":")); cbn [map sum_Z]; lia.
Qed.

Lemma total_zero (output_lines : list str) :
  (forall line, In line output_lines -> int (last_field line) = None) ->
  total_of_count_lines output_lines = 0%Z.
Proof.
  unfold total_of_count_lines.
  induction output_lines as [|l ls IH]; intros H; [reflexivity|].
  assert (Hl : field_value l = 0%Z).
  { unfold field_value. now rewrite (H l (or_introl eq_refl)). }
  assert (Hls : sum_Z (map field_value
                         (filter (fun line => contains line (lit ":")) ls))
                = 0%Z).
  { apply IH. intros line Hin. apply H. now right. }
  cbn [filter]. destruct (contains l (lit ":")); cbn [map sum_Z]; lia.
Qed.

Lemma sum_counts_eq (output : str) :
  sum_counts output = total_of_count_lines (splitlines output).
Proof. unfold sum_counts. now rewrite fold_count_line. Qed.

(** C2, as the specification words it: every line's last
    colon-delimited field would be parsed and added.  When one file is
    searched the tool prints the bare count, here 42; its last field
    parses as 42, and [count] returns 0. *)
Lemma count_sums_last_fields_counterexample :
  fst (count (prints 0 count_sample_bare) {| default_args := [] |}
         (lit "<>") [lit "one.py"] boot)
  = Returned 0%Z
  /\ total_of_last_fields (splitlines count_sample_bare) = 42%Z.
Proof. split; reflexivity. Qed.

Section Aggregators.

Context {World : Type}.
Variable os_run : list str -> World -> outcome CompletedProcess * World.

(** C5. [lines] returns what [search] printed, split at the line
    boundaries, without the lines that are empty or all whitespace,
    the others in their order; where the search raises, so does
    [lines].  When the tool prints "a", two line ends, two spaces, a
    line end, "b" and a line end, the result is exactly "a", "b". *)
Theorem lines_drops_blank_lines
  (self : Ripit) (pattern : str) (args : list str) (m : machine World) :
  lines os_run self pattern args m
  = match search os_run self pattern args m with
    | (Returned output, m') =>
        (Returned (filter (fun line => negb (blank line))
                     (splitlines output)), m')
    | (Raised e, m') => (Raised e, m')
    end
  /\ filter (fun line => negb (blank line)) (splitlines lines_sample)
     = [lit "a"; lit "b"]
  /\ fst (lines (prints 0 lines_sample) {| default_args := [] |}
            (lit "<>") [] boot)
     = Returned [lit "a"; lit "b"].
Proof.
  split; [|split].
  - unfold lines, bind, ret.
    destruct (search os_run self pattern args m) as [[output|e] m'];
      [|reflexivity].
    now rewrite nonblank_lines_filter.
  - reflexivity.
  - reflexivity.
Qed.

(** C2, amended. [count] searches with [-c] put before the other
    arguments and splits the output into lines; each line that holds a
    colon has its last colon-delimited field parsed as an integer,
    which is added to the total when it parses and skipped without an
    error when it does not; a line without a colon is skipped; the
    total is 0 when nothing is added.  The output with counts 3 and 5
    gives 8, and with [abc] for the first count it gives 5. *)
Theorem count_sums_count_lines
  (self : Ripit) (pattern : str) (args : list str) (m : machine World) :
  count os_run self pattern args m
  = match search os_run self pattern (lit "-c" :: args) m with
    | (Returned output, m') =>
        (Returned (total_of_count_lines (splitlines output)), m')
    | (Raised e, m') => (Raised e, m')
    end
  /\ fst (count (prints 0 count_sample) {| default_args := [] |}
            (lit "<>") [] boot) = Returned 8%Z
  /\ fst (count (prints 0 count_sample_malformed) {| default_args := [] |}
            (lit "<>") [] boot) = Returned 5%Z
  /\ fst (count (prints 1 []) {| default_args := [] |}
            (lit "<>") [] boot) = Returned 0%Z.
Proof.
  split; [|repeat split; reflexivity].
  unfold count, bind, ret.
  destruct (search os_run self pattern (lit "-c" :: args) m)
    as [[output|e] m']; [|reflexivity].
  now rewrite sum_counts_eq.
Qed.

End Aggregators.

(** ** The search invoker *)

Section Invoker.

Context {World : Type}.
Variable shutil_which : str -> World -> option str.
Variable os_run : list str -> World -> outcome CompletedProcess * World.

(** What [search] does, case by case. *)
Lemma search_cases (self : Ripit) (pattern : str) (args : list str)
  (m : machine World) :
  let cmd := [rg; _convert_pattern pattern] ++ default_args self ++ args in
  search os_run self pattern args m
  = if existsb has_nul cmd
    then (Raised (ValueError "embedded null byte"), ran m cmd (world m))
    else
      match os_run cmd (world m) with
      | (Returned result, w) => (Returned (stdout result), ran m cmd w)
      | (Raised FileNotFoundError, w) =>
          (Raised (ImportError not_in_path), ran m cmd w)
      | (Raised e, w) => (Raised e, ran m cmd w)
      end.
Proof.
  intros cmd. unfold search, try_except, bind, ret, raise, subprocess_run.
  fold cmd. destruct (existsb has_nul cmd); [reflexivity|].
  destruct (os_run cmd (world m)) as [[result|e] w]; [reflexivity|].
  destruct e; reflexivity.
Qed.

Lemma search_spawned (self : Ripit) (pattern : str) (args : list str)
  (m : machine World) :
  spawned (snd (search os_run self pattern args m))
  = spawned m
      ++ [[rg; _convert_pattern pattern] ++ default_args self ++ args].
Proof.
  rewrite search_cases.
  destruct (existsb has_nul _); [reflexivity|].
  destruct (os_run _ _) as [[result|e] w]; [reflexivity|].
  destruct e; reflexivity.
Qed.

Lemma invoke_cases (self : Ripit) (c : call) (m : machine World) :
  invoke os_run self c m
  = match search os_run self (call_pattern c) (call_extra c) m with
    | (Returned output, m') => (Returned (call_result c output), m')
    | (Raised e, m') => (Raised e, m')
    end.
Proof.
  destruct c as [p a|p a|p a];
    unfold invoke, lines, count, bind, ret;
    cbn [call_pattern call_extra call_result];
    destruct (search os_run self p _ m) as [[output|e] m'];
    reflexivity.
Qed.

Lemma invoke_spawned (self : Ripit) (c : call) (m : machine World) :
  spawned (snd (invoke os_run self c m))
  = spawned m ++ [call_cmd self c].
Proof.
  rewrite invoke_cases.
  pose proof (search_spawned self (call_pattern c) (call_extra c) m) as H.
  destruct (search os_run self _ _ m) as [[output|e] m']; exact H.
Qed.

(** C6. The argument vector [search] executes is the tool's name, the
    translated pattern, the default options in their order, then the
    extra arguments in theirs; [count] executes the same with [-c]
    put before the extra arguments. *)
Theorem command_vector (self : Ripit) (pattern : str) (args : list str)
  (m : machine World) :
  spawned (snd (search os_run self pattern args m))
  = spawned m
      ++ [[lit "rg"; _convert_pattern pattern]
            ++ default_args self ++ args]
  /\ spawned (snd (count os_run self pattern args m))
     = spawned m
         ++ [[lit "rg"; _convert_pattern pattern]
               ++ default_args self ++ [lit "-c"] ++ args].
Proof.
  split; [apply search_spawned|].
  pose proof (search_spawned self pattern (lit "-c" :: args) m) as H.
  unfold count, bind, ret.
  destruct (search os_run self pattern (lit "-c" :: args) m)
    as [[output|e] m']; exact H.
Qed.

(** C9. The default options of an instance are those given to the
    constructor (none when it is given nothing), and every call of
    [search], [lines] and [count] in any sequence on that instance
    puts exactly them before the call's extra arguments. *)
Theorem default_args_fixed
  (given : option (list str)) (m0 m1 : machine World) (self : Ripit) :
  __init__ shutil_which given m0 = (Returned self, m1) ->
  default_args self = match given with Some l => l | None => [] end
  /\ forall (calls : list call) (m : machine World),
       spawned (session os_run self calls m)
       = spawned m
           ++ map (fun c =>
                     [rg; _convert_pattern (call_pattern c)]
                       ++ match given with Some l => l | None => [] end
                       ++ call_extra c) calls.
Proof.
  intros H.
  assert (Hd : default_args self
               = match given with Some l => l | None => [] end).
  { unfold __init__, _check_ripgrep, bind, ret in H.
    destruct (shutil_which rg (world m0)) as [[|x p]|];
      try discriminate H.
    injection H as <- _. now destruct given as [[|a l]|]. }
  split; [exact Hd|]. rewrite <- Hd.
  unfold session. induction calls as [|c cs IH]; intros m.
  - cbn. now rewrite app_nil_r.
  - cbn [fold_left map]. rewrite IH, invoke_spawned, <- app_assoc.
    reflexivity.
Qed.

(** C7, amended. Where the tool is not on the path the constructor
    raises the dependency-missing error at once, and nothing has been
    run.  A call whose process runs to its end returns a result
    whatever the exit status, the error output or the shape of the
    count lines.  A call that raises does so in one of three ways: an
    argument held a NUL and [subprocess.run] refused it with a
    [ValueError]; or the executable was not found, which is raised as
    the dependency-missing error; or [subprocess.run] raised something
    else, which is passed on as it is. *)
Theorem raised_errors
  (given : option (list str)) (self : Ripit) (c : call)
  (m : machine World) :
  (shutil_which rg (world m) = None ->
   __init__ shutil_which given m = (Raised (ImportError install_message), m))
  /\ (forall result w,
        existsb has_nul (call_cmd self c) = false ->
        os_run (call_cmd self c) (world m) = (Returned result, w) ->
        fst (invoke os_run self c m)
        = Returned (call_result c (stdout result)))
  /\ (forall e,
        fst (invoke os_run self c m) = Raised e ->
        (existsb has_nul (call_cmd self c) = true
         /\ e = ValueError "embedded null byte")
        \/ (existsb has_nul (call_cmd self c) = false
            /\ fst (os_run (call_cmd self c) (world m))
               = Raised FileNotFoundError
            /\ e = ImportError not_in_path)
        \/ (existsb has_nul (call_cmd self c) = false
            /\ fst (os_run (call_cmd self c) (world m)) = Raised e
            /\ e <> FileNotFoundError)).
Proof.
  split; [|split].
  - intros H. unfold __init__, _check_ripgrep, bind. now rewrite H.
  - intros result w Hn Hr. rewrite invoke_cases, search_cases.
    fold (call_cmd self c). now rewrite Hn, Hr.
  - intros e. rewrite invoke_cases, search_cases.
    fold (call_cmd self c).
    destruct (existsb has_nul (call_cmd self c)).
    + cbn. intros [= <-]. now left.
    + destruct (os_run (call_cmd self c) (world m)) as [[result|e'] w];
        [discriminate|].
      destruct e'; cbn; intros [= <-]; right;
        solve [ left; repeat split; reflexivity
              | right; repeat split; discriminate ].
Qed.

End Invoker.

(** C7, as the specification words it: dependency-missing would be the
    only error raised.  With the tool installed, a pattern that holds a
    NUL makes [search] raise [ValueError], which is no [ImportError]. *)
Lemma raised_errors_counterexample :
  fst (search (prints 0 []) {| default_args := [] |}
         (lit "a" ++ [0] ++ lit "b") [] boot)
  = Raised (ValueError "embedded null byte")
  /\ forall msg, ValueError "embedded null byte" <> ImportError msg.
Proof. split; [reflexivity | discriminate]. Qed.

(** C9 at work: an instance built with [--type py], then one call of
    each method. *)
Lemma default_args_fixed_witness :
  spawned (session (prints 0 []) {| default_args := [lit "--type"; lit "py"] |}
             [CallSearch (lit "def <name>") [];
              CallCount (lit "<num>") [lit "src"];
              CallLines (lit "f(<>)") [lit "-i"]] boot)
  = [ [lit "rg"; lit "def \w+"; lit "--type"; lit "py"];
      [lit "rg"; lit "\d+"; lit "--type"; lit "py"; lit "-c"; lit "src"];
      [lit "rg"; lit "f\(.*\)"; lit "--type"; lit "py"; lit "-i"] ].
Proof.
  apply (default_args_fixed which_found (prints 0 [])
           (Some [lit "--type"; lit "py"]) boot boot
           {| default_args := [lit "--type"; lit "py"] |}).
  reflexivity.
Defined.

(** C7 at work: the tool missing at construction; a tool-reported error
    (exit status 2, no output) under [count]; the executable gone at the
    time of the search. *)
Lemma raised_errors_witness :
  __init__ which_missing None boot
  = (Raised (ImportError install_message), boot)
  /\ fst (invoke (prints 2 []) {| default_args := [] |}
            (CallCount (lit "(") []) boot) = Returned (Total 0)
  /\ fst (invoke vanished {| default_args := [] |}
            (CallLines (lit "<>") []) boot) = Raised (ImportError not_in_path).
Proof.
  split; [|split].
  - apply (raised_errors which_missing (prints 0 []) None
             {| default_args := [] |} (CallSearch [] []) boot).
    reflexivity.
  - apply (proj1 (proj2 (raised_errors which_found (prints 2 []) None
                           {| default_args := [] |} (CallCount (lit "(") [])
                           boot))
             {| returncode := 2; stdout := []; stderr := [] |} tt);
      reflexivity.
  - destruct (proj2 (proj2 (raised_errors which_found vanished None
                              {| default_args := [] |}
                              (CallLines (lit "<>") []) boot))
                (ImportError not_in_path) eq_refl)
      as [[H _]|[[_ [_ H]]|[_ [_ H]]]].
    + discriminate H.
    + reflexivity.
    + reflexivity.
Defined.

(* ================================================================== *)
(** * Part III: further properties *)
(* ================================================================== *)

(** ** What a replacement leaves behind *)

Lemma startswith_foreign (c : char) (r t : str) :
  t <> [] -> existsb (N.eqb c) t = false -> startswith (c :: r) t = false.
Proof.
  destruct t as [|x t]; [congruence|]. intros _ H.
  cbn [existsb] in H. apply orb_false_elim in H as [H _].
  cbn [startswith]. now rewrite H.
Qed.

(** No occurrence starts inside a text whose characters are foreign to
    the token. *)
Lemma contains_after_foreign (t : str) :
  t <> [] ->
  forall a r, apart a t = true -> contains (a ++ r) t = contains r t.
Proof.
  intros Ht. unfold apart.
  induction a as [|c a IH]; intros r H; [reflexivity|].
  cbn [forallb] in H. apply andb_prop in H as [Hc Ha].
  apply negb_true_iff in Hc.
  cbn [app]. rewrite contains_unfold.
  rewrite (startswith_foreign _ _ _ Ht Hc). cbn [orb]. now apply IH.
Qed.

Lemma contains_suffix (t : str) :
  forall a r, contains (a ++ r) t = false -> contains r t = false.
Proof.
  induction a as [|c a IH]; intros r H; [exact H|].
  cbn [app] in H. rewrite contains_unfold in H.
  apply orb_false_elim in H as [_ H]. now apply IH.
Qed.

Section Leftovers.

Variables old new : str.
Hypothesis old_some : old <> [].
Hypothesis new_some : new <> [].

(** A prefix of the result that holds no character of [new] was copied:
    it is a prefix of the input. *)
Lemma startswith_replace_scan :
  forall u, apart u new = true ->
  forall s, startswith (replace_scan old new 0 s) u = true ->
            startswith s u = true.
Proof.
  unfold apart.
  induction u as [|x u IH]; intros Hu s H; [reflexivity|].
  cbn [forallb] in Hu. apply andb_prop in Hu as [Hx Hu].
  apply negb_true_iff in Hx.
  destruct s as [|c s]; [discriminate H|].
  destruct (startswith (c :: s) old) eqn:E.
  - apply startswith_split in E. rewrite E in H.
    rewrite (replace_scan_hit old new old_some) in H.
    destruct new as [|n new']; [congruence|].
    cbn [app startswith] in H. apply andb_prop in H as [H _].
    apply N.eqb_eq in H. subst n.
    cbn [existsb] in Hx. now rewrite N.eqb_refl in Hx.
  - rewrite (replace_scan_miss old new c s E) in H.
    cbn [startswith] in *. apply andb_prop in H as [Hc H].
    rewrite Hc. cbn [andb]. now apply IH.
Qed.

Hypothesis old_new : apart old new = true.

(** Every occurrence of [old] is gone after the replacement. *)
Lemma replace_scan_gone (s : str) :
  apart new old = true ->
  contains (replace_scan old new 0 s) old = false.
Proof.
  intros Hno.
  apply (replace_scan_ind old new old_some
           (fun _ r => contains r old = false)).
  - rewrite contains_unfold. destruct old; [congruence | reflexivity].
  - intros r IH. now rewrite contains_after_foreign.
  - intros c s' E IH. rewrite contains_unfold, IH, orb_false_r.
    destruct (startswith (c :: replace_scan old new 0 s') old) eqn:E';
      [|reflexivity].
    rewrite <- (replace_scan_miss old new c s' E) in E'.
    apply startswith_replace_scan in E'; [congruence | exact old_new].
Qed.

(** A token absent before the replacement is absent after it. *)
Lemma replace_scan_keeps_absent (t : str) :
  t <> [] -> apart t new = true -> apart new t = true ->
  forall s, contains s t = false ->
            contains (replace_scan old new 0 s) t = false.
Proof.
  intros Ht Htn Hnt.
  apply (replace_scan_ind old new old_some
           (fun s r => contains s t = false -> contains r t = false)).
  - auto.
  - intros r IH H. rewrite contains_after_foreign by assumption.
    apply IH. now apply contains_suffix in H.
  - intros c s' E IH H. rewrite contains_unfold in H.
    apply orb_false_elim in H as [Hc Hs].
    rewrite contains_unfold, (IH Hs), orb_false_r.
    destruct (startswith (c :: replace_scan old new 0 s') t) eqn:E';
      [|reflexivity].
    rewrite <- (replace_scan_miss old new c s' E) in E'.
    apply startswith_replace_scan in E'; [congruence | exact Htn].
Qed.

Hypothesis old_free : bracket_free old = true.
Hypothesis new_free : bracket_free new = true.

Lemma filter_bracket_free (t : str) :
  bracket_free t = true -> filter is_bracket t = [].
Proof.
  unfold bracket_free. induction t as [|c t IH]; [reflexivity|].
  cbn [existsb filter]. rewrite negb_orb.
  intros H. apply andb_prop in H as [Hc Ht].
  apply negb_true_iff in Hc. rewrite Hc. now apply IH.
Qed.

(** The replacement neither adds, drops nor moves a bracket. *)
Lemma filter_bracket_replace_scan (s : str) :
  filter is_bracket (replace_scan old new 0 s) = filter is_bracket s.
Proof.
  apply (replace_scan_ind old new old_some
           (fun s r => filter is_bracket r = filter is_bracket s)).
  - reflexivity.
  - intros r IH. rewrite !filter_app, IH.
    now rewrite (filter_bracket_free old), (filter_bracket_free new).
  - intros c s' _ IH. cbn [filter]. now rewrite IH.
Qed.

End Leftovers.

(** ** The translator, further *)

Lemma filter_bracket_escape (s : str) :
  filter is_bracket (flat_map escape_char s) = filter is_bracket s.
Proof.
  induction s as [|c s IH]; [reflexivity|].
  cbn [flat_map]. rewrite filter_app, IH. unfold escape_char.
  destruct (is_bracket c) eqn:E; cbn [filter].
  - change (is_bracket backslash) with false. cbv iota. now rewrite E.
  - now rewrite E.
Qed.

Ltac token_facts :=
  solve [ reflexivity | discriminate | assumption ].

Lemma no_placeholder_left (pattern : str) :
  contains (_convert_pattern pattern) (lit "<>") = false
  /\ contains (_convert_pattern pattern) (lit "<name>") = false
  /\ contains (_convert_pattern pattern) (lit "<num>") = false.
Proof.
  rewrite _convert_pattern_eq.
  rewrite !(replace_nonempty _ _) by discriminate.
  repeat split.
  - do 2 (apply replace_scan_keeps_absent; try token_facts).
    apply replace_scan_gone; token_facts.
  - apply replace_scan_keeps_absent; try token_facts.
    apply replace_scan_gone; token_facts.
  - apply replace_scan_gone; token_facts.
Qed.

Lemma same_brackets (pattern : str) :
  filter is_bracket (_convert_pattern pattern) = filter is_bracket pattern.
Proof.
  rewrite _convert_pattern_eq.
  rewrite !(replace_nonempty _ _) by discriminate.
  rewrite !filter_bracket_replace_scan by token_facts.
  apply filter_bracket_escape.
Qed.

(** X1. The translator's output holds no placeholder: no [<>], no
    [<name>] and no [<num>] is left in it, whatever the pattern. *)
Theorem convert_pattern_consumes_placeholders (pattern : str) :
  contains (_convert_pattern pattern) (lit "<>") = false
  /\ contains (_convert_pattern pattern) (lit "<name>") = false
  /\ contains (_convert_pattern pattern) (lit "<num>") = false.
Proof. apply no_placeholder_left. Qed.

(** X2. The brackets of the output, in their order, are the brackets of
    the pattern: the translator adds none, drops none, moves none. *)
Theorem convert_pattern_keeps_brackets (pattern : str) :
  filter is_bracket (_convert_pattern pattern) = filter is_bracket pattern.
Proof. apply same_brackets. Qed.

(** *** Patterns without placeholders *)

Lemma prefix_backslash_all (s : str) :
  prefix_backslash (lit "()[]{}") s = flat_map escape_char s.
Proof.
  unfold prefix_backslash. apply flat_map_ext. intros c.
  unfold escape_char, is_bracket.
  change (lit "()[]{}") with [40; 41; 91; 93; 123; 125].
  cbn [existsb]. rewrite orb_false_r, !orb_assoc. reflexivity.
Qed.

Section EscapedText.

(** A token without brackets and backslashes. *)
Variable t : str.
Hypothesis t_free : bracket_free t = true.
Hypothesis t_plain : existsb (N.eqb backslash) t = false.

Lemma startswith_escape :
  forall s, startswith (flat_map escape_char s) t = startswith s t.
Proof.
  revert t_free t_plain. unfold bracket_free.
  induction t as [|x u IH]; intros Hf Hp s; [reflexivity|].
  cbn [existsb] in Hf, Hp. rewrite negb_orb in Hf.
  apply andb_prop in Hf as [Hx Hf]. apply negb_true_iff in Hx.
  apply orb_false_elim in Hp as [Hb Hp].
  destruct s as [|c s]; [reflexivity|].
  cbn [flat_map]. unfold escape_char at 1.
  destruct (is_bracket c) eqn:E; cbn [app startswith].
  - rewrite Hb. destruct (N.eqb_spec c x) as [->|]; [congruence|].
    reflexivity.
  - now rewrite (IH Hf Hp).
Qed.

Lemma contains_escape :
  forall s, contains (flat_map escape_char s) t = contains s t.
Proof.
  induction s as [|c s IH]; [reflexivity|].
  rewrite (contains_unfold (c :: s)), <- startswith_escape, <- IH.
  cbn [flat_map]. unfold escape_char at 1 3.
  destruct (is_bracket c) eqn:E; cbn [app].
  - rewrite (contains_unfold (backslash :: _)).
    rewrite (contains_unfold (c :: _)).
    revert t_free t_plain. unfold bracket_free.
    destruct t as [|x u]; [reflexivity|]. cbn [existsb startswith].
    rewrite negb_orb. intros Hf Hp.
    apply andb_prop in Hf as [Hx _]. apply negb_true_iff in Hx.
    apply orb_false_elim in Hp as [Hb _]. rewrite Hb.
    destruct (N.eqb_spec c x) as [->|]; [congruence | reflexivity].
  - now rewrite contains_unfold.
Qed.

End EscapedText.

Lemma only_escaped (pattern : str) :
  contains pattern (lit "<>") = false ->
  contains pattern (lit "<name>") = false ->
  contains pattern (lit "<num>") = false ->
  _convert_pattern pattern = flat_map escape_char pattern.
Proof.
  intros H1 H2 H3. rewrite _convert_pattern_eq.
  rewrite <- (contains_escape (lit "<>")) in H1 by reflexivity.
  rewrite <- (contains_escape (lit "<name>")) in H2 by reflexivity.
  rewrite <- (contains_escape (lit "<num>")) in H3 by reflexivity.
  rewrite (replace_absent _ _ _ H1), (replace_absent _ _ _ H2).
  now apply replace_absent.
Qed.

(** X3. A pattern that holds no placeholder is escaped and nothing
    else: each bracket gets one backslash before it, every other
    character stays as it is. *)
Theorem convert_pattern_only_escapes (pattern : str) :
  contains pattern (lit "<>") = false ->
  contains pattern (lit "<name>") = false ->
  contains pattern (lit "<num>") = false ->
  _convert_pattern pattern = prefix_backslash (lit "()[]{}") pattern.
Proof.
  intros H1 H2 H3. rewrite prefix_backslash_all. now apply only_escaped.
Qed.

(** X3 at work on an index expression. *)
Lemma convert_pattern_only_escapes_witness :
  _convert_pattern (lit "data[0:10] < {x}")
  = prefix_backslash (lit "()[]{}") (lit "data[0:10] < {x}").
Proof.
  apply (convert_pattern_only_escapes (lit "data[0:10] < {x}"));
    reflexivity.
Defined.

(** *** Translating twice *)

Lemma length_escape (s : str) :
  List.length (flat_map escape_char s)
  = (List.length s + List.length (filter is_bracket s))%nat.
Proof.
  induction s as [|c s IH]; [reflexivity|].
  cbn [flat_map filter]. rewrite length_app, IH. unfold escape_char.
  destruct (is_bracket c); cbn [List.length]; lia.
Qed.

Lemma filter_bracket_nil (s : str) :
  filter is_bracket s = [] <-> existsb is_bracket s = false.
Proof.
  induction s as [|c s IH]; [easy|]. cbn [filter existsb].
  destruct (is_bracket c); cbn [orb]; [easy | exact IH].
Qed.

(** X4. Translating a second time changes nothing exactly when the
    pattern holds no bracket; with a bracket in the pattern, the second
    translation always differs from the first. *)
Theorem convert_pattern_twice (pattern : str) :
  _convert_pattern (_convert_pattern pattern) = _convert_pattern pattern
  <-> existsb is_bracket pattern = false.
Proof.
  destruct (no_placeholder_left pattern) as [H1 [H2 H3]].
  rewrite (only_escaped _ H1 H2 H3).
  rewrite <- filter_bracket_nil, <- (same_brackets pattern).
  split.
  - intros H. apply (f_equal (@List.length char)) in H.
    rewrite length_escape in H.
    destruct (filter is_bracket (_convert_pattern pattern));
      [reflexivity | cbn [List.length] in H; lia].
  - intros H. apply escape_free. now apply filter_bracket_nil.
Qed.

(** X4 at work, in both directions. *)
Lemma convert_pattern_twice_witness :
  _convert_pattern (_convert_pattern (lit "<name> = <num>"))
  = _convert_pattern (lit "<name> = <num>")
  /\ existsb is_bracket (lit "\w+ = \d+") = false.
Proof.
  split.
  - apply (proj2 (convert_pattern_twice (lit "<name> = <num>"))).
    reflexivity.
  - apply (proj1 (convert_pattern_twice (lit "\w+ = \d+"))).
    reflexivity.
Defined.

(** *** Patterns as text and placeholders *)

(** Text without [<] is copied by the replacement of a token that
    starts with [<]. *)
Lemma replace_scan_text (old' new t r : str) :
  existsb (N.eqb 60) t = false ->
  replace_scan (60 :: old') new 0 (t ++ r)
  = t ++ replace_scan (60 :: old') new 0 r.
Proof.
  induction t as [|c t IH]; [reflexivity|]. cbn [existsb app].
  intros H. apply orb_false_elim in H as [Hc Ht].
  rewrite replace_scan_miss; [now rewrite IH|].
  cbn [startswith]. now rewrite N.eqb_sym, Hc.
Qed.

Lemma escape_keeps_text (t : str) :
  existsb (N.eqb 60) t = false ->
  existsb (N.eqb 60) (flat_map escape_char t) = false.
Proof.
  induction t as [|c t IH]; [reflexivity|]. cbn [existsb flat_map].
  intros H. apply orb_false_elim in H as [Hc Ht].
  rewrite existsb_app. apply orb_false_intro; [|exact (IH Ht)].
  unfold escape_char.
  destruct (is_bracket c); cbn [existsb]; now rewrite Hc.
Qed.

Ltac over_text :=
  match goal with
  | |- context [replace_scan (60 :: ?o) ?n 0 (?t ++ ?r)] =>
      rewrite (replace_scan_text o n t r) by (assumption || reflexivity)
  end.

(** The three token replacements, piece by piece. *)
Lemma replace_pieces (ps : list piece) :
  forallb opens_nothing ps = true ->
  replace_scan (lit "<num>") (lit "\d+") 0
    (replace_scan (lit "<name>") (lit "\w+") 0
       (replace_scan (lit "<>") (lit ".*") 0
          (flat_map escape_char (flat_map typed ps))))
  = flat_map meant ps.
Proof.
  induction ps as [|p ps IH]; [reflexivity|]. cbn [forallb flat_map].
  intros H. apply andb_prop in H as [Hp Hps]. specialize (IH Hps).
  rewrite flat_map_app.
  set (rest := flat_map escape_char (flat_map typed ps)) in *.
  destruct p as [text| | |]; cbn [typed meant opens_nothing] in *.
  - apply negb_true_iff, escape_keeps_text in Hp.
    rewrite prefix_backslash_all.
    change (lit "<>") with (60 :: [62]).
    change (lit "<name>") with (60 :: [110; 97; 109; 101; 62]).
    change (lit "<num>") with (60 :: [110; 117; 109; 62]).
    do 3 over_text. f_equal. exact IH.
  - change (flat_map escape_char (lit "<>")) with (lit "<>").
    rewrite (replace_scan_hit (lit "<>") (lit ".*")) by discriminate.
    change (lit "<name>") with (60 :: [110; 97; 109; 101; 62]).
    change (lit "<num>") with (60 :: [110; 117; 109; 62]).
    do 2 over_text. f_equal. exact IH.
  - change (flat_map escape_char (lit "<name>")) with (lit "<name>").
    change (lit "<name>" ++ rest)
      with (60 :: [110; 97; 109; 101; 62] ++ rest) at 1.
    rewrite (replace_scan_miss (lit "<>")) by reflexivity.
    change (lit "<>") with (60 :: [62]).
    rewrite (replace_scan_text [62] _ [110; 97; 109; 101; 62])
      by reflexivity.
    change (60 :: [110; 97; 109; 101; 62] ++ ?r) with (lit "<name>" ++ r).
    rewrite (replace_scan_hit (lit "<name>") (lit "\w+")) by discriminate.
    change (lit "<num>") with (60 :: [110; 117; 109; 62]).
    over_text. f_equal. exact IH.
  - change (flat_map escape_char (lit "<num>")) with (lit "<num>").
    change (lit "<num>" ++ rest)
      with (60 :: [110; 117; 109; 62] ++ rest) at 1.
    rewrite (replace_scan_miss (lit "<>")) by reflexivity.
    change (lit "<>") with (60 :: [62]).
    rewrite (replace_scan_text [62] _ [110; 117; 109; 62]) by reflexivity.
    rewrite (replace_scan_miss (lit "<name>")) by reflexivity.
    change (lit "<name>") with (60 :: [110; 97; 109; 101; 62]).
    rewrite (replace_scan_text _ _ [110; 117; 109; 62]) by reflexivity.
    change (60 :: [110; 117; 109; 62] ++ ?r) with (lit "<num>" ++ r).
    rewrite (replace_scan_hit (lit "<num>") (lit "\d+")) by discriminate.
    f_equal. exact IH.
Qed.

(** X5. A pattern typed as a sequence of literal texts and
    placeholders, where no literal text holds a [<], translates piece
    by piece: each text with its brackets escaped, each [<>] as [.*],
    each [<name>] as [\w+], each [<num>] as [\d+], in the same order. *)
Theorem convert_pattern_piecewise (ps : list piece) :
  forallb opens_nothing ps = true ->
  _convert_pattern (flat_map typed ps) = flat_map meant ps.
Proof.
  intros H. rewrite _convert_pattern_eq.
  rewrite !(replace_nonempty _ _) by discriminate.
  now apply replace_pieces.
Qed.

(** X5 at work on a method definition. *)
Lemma convert_pattern_piecewise_witness :
  _convert_pattern (lit "def <name>(self, <>) -> list[<num>]:")
  = lit "def \w+\(self, .*\) -> list\[\d+\]:".
Proof.
  apply (convert_pattern_piecewise
           [Literal (lit "def "); Identifier; Literal (lit "(self, ");
            Anything; Literal (lit ") -> list["); Number;
            Literal (lit "]:")]).
  reflexivity.
Defined.

(** *** The empty regex *)

Lemma replace_scan_nil (old new s : str) :
  old <> [] -> new <> [] -> replace_scan old new 0 s = [] -> s = [].
Proof.
  intros Ho Hn H. destruct s as [|c s]; [reflexivity|].
  destruct (startswith (c :: s) old) eqn:E.
  - apply startswith_split in E. rewrite E in H.
    rewrite (replace_scan_hit old new Ho) in H.
    apply app_eq_nil in H as [H _]. congruence.
  - rewrite (replace_scan_miss old new c s E) in H. discriminate H.
Qed.

Lemma escape_nil (s : str) : flat_map escape_char s = [] -> s = [].
Proof.
  destruct s as [|c s]; [reflexivity|]. cbn [flat_map]. unfold escape_char.
  destruct (is_bracket c); discriminate.
Qed.

(** X6. The translated regex is empty only for the empty pattern: no
    pattern with a character in it turns into the regex that matches
    everything. *)
Theorem convert_pattern_empty (pattern : str) :
  _convert_pattern pattern = [] <-> pattern = [].
Proof.
  split; [|intros ->; reflexivity].
  rewrite _convert_pattern_eq.
  rewrite !(replace_nonempty _ _) by discriminate.
  intros H. do 3 (apply replace_scan_nil in H; [|discriminate..]).
  now apply escape_nil.
Qed.

(** X6 at work: the empty pattern, and the empty regex. *)
Lemma convert_pattern_empty_witness :
  _convert_pattern (lit "") = [] /\ lit "" = [].
Proof.
  split.
  - apply (proj2 (convert_pattern_empty (lit ""))). reflexivity.
  - apply (proj1 (convert_pattern_empty (lit ""))). reflexivity.
Defined.

(** ** The line listing, further *)

Lemma splitlines_scan_line (l rest : str) :
  one_line l = true ->
  forall cur,
    splitlines_scan cur (l ++ LF :: rest)
    = (rev cur ++ l) :: splitlines_scan [] rest.
Proof.
  unfold one_line. induction l as [|c l IH]; intros H cur.
  - cbn [app splitlines_scan]. change (islinebreak LF) with true.
    cbv iota. rewrite app_nil_r. now destruct rest.
  - cbn [existsb] in H. rewrite negb_orb in H.
    apply andb_prop in H as [Hc Hl]. apply negb_true_iff in Hc.
    cbn [app splitlines_scan]. rewrite Hc, (IH Hl).
    cbn [rev]. now rewrite <- app_assoc.
Qed.

(** Splitting undoes [unlines]. *)
Lemma splitlines_unlines (l : list str) :
  forallb one_line l = true -> splitlines (unlines l) = l.
Proof.
  unfold splitlines, unlines.
  induction l as [|x l IH]; [reflexivity|]. cbn [forallb flat_map].
  intros H. apply andb_prop in H as [Hx Hl].
  rewrite <- app_assoc. cbn [app].
  rewrite (splitlines_scan_line _ _ Hx). cbn [rev app].
  now rewrite (IH Hl).
Qed.

Lemma existsb_rev (f : char -> bool) (l : str) :
  existsb f (rev l) = existsb f l.
Proof.
  induction l as [|c l IH]; [reflexivity|]. cbn [rev existsb].
  rewrite existsb_app, IH. cbn [existsb].
  rewrite orb_false_r. apply orb_comm.
Qed.

(** No line that [splitlines] returns holds a line boundary. *)
Lemma splitlines_scan_one_line :
  forall s cur,
    one_line cur = true ->
    Forall (fun l => one_line l = true) (splitlines_scan cur s).
Proof.
  unfold one_line.
  induction s as [|c s IH]; intros cur H.
  - cbn [splitlines_scan]. destruct cur as [|x cur]; constructor;
      [now rewrite existsb_rev | constructor].
  - cbn [splitlines_scan]. destruct (islinebreak c) eqn:E.
    + constructor; [now rewrite existsb_rev|].
      destruct s as [|c' s']; [now apply IH|].
      destruct ((c =? 13) && (c' =? 10)) eqn:E2; [|now apply IH].
      apply andb_prop in E2 as [_ E2]. apply N.eqb_eq in E2. subst c'.
      specialize (IH [] eq_refl). cbn [splitlines_scan] in IH.
      change (islinebreak 10) with true in IH. cbv iota in IH.
      apply Forall_inv_tail in IH. now destruct s'.
    + apply IH. cbn [existsb]. now rewrite E.
Qed.

Section Listing.

Context {World : Type}.
Variable os_run : list str -> World -> outcome CompletedProcess * World.

(** X7. When the tool prints a sequence of lines, each ended by a line
    feed and none holding another line boundary, [lines] returns those
    of them that are not blank, unchanged and in their order. *)
Theorem lines_of_unlines
  (self : Ripit) (pattern : str) (args : list str) (m m' : machine World)
  (printed : list str) :
  forallb one_line printed = true ->
  search os_run self pattern args m = (Returned (unlines printed), m') ->
  lines os_run self pattern args m
  = (Returned (filter (fun line => negb (blank line)) printed), m').
Proof.
  intros Hl Hs. unfold lines, bind, ret. rewrite Hs.
  now rewrite nonblank_lines_filter, splitlines_unlines.
Qed.

(** X8. No line that [lines] returns is blank, and none holds a line
    boundary, whatever the tool printed. *)
Theorem lines_are_lines
  (self : Ripit) (pattern : str) (args : list str) (m m' : machine World)
  (found : list str) :
  lines os_run self pattern args m = (Returned found, m') ->
  Forall (fun line => blank line = false /\ one_line line = true) found.
Proof.
  unfold lines, bind, ret.
  destruct (search os_run self pattern args m) as [[output|e] m1];
    [|discriminate].
  intros [= <- _]. rewrite nonblank_lines_filter.
  apply Forall_forall. intros l Hin. apply filter_In in Hin as [Hin Hb].
  split; [now apply negb_true_iff|].
  pose proof (splitlines_scan_one_line output [] eq_refl) as H.
  rewrite Forall_forall in H. now apply H.
Qed.

End Listing.

(** X7 at work: three lines printed, the second one blank. *)
Lemma lines_of_unlines_witness :
  lines (prints 0 (unlines [lit "a.py:1:x"; lit "  "; lit "b.py:2:y"]))
    {| default_args := [] |} (lit "<>") [] boot
  = (Returned [lit "a.py:1:x"; lit "b.py:2:y"],
     ran boot [lit "rg"; lit ".*"] tt).
Proof.
  apply (lines_of_unlines (prints 0 _) {| default_args := [] |}
           (lit "<>") [] boot _
           [lit "a.py:1:x"; lit "  "; lit "b.py:2:y"]);
    reflexivity.
Defined.

(** X8 at work on output that ends without a line feed. *)
Lemma lines_are_lines_witness :
  Forall (fun line => blank line = false /\ one_line line = true)
    [lit "a"; lit "b"].
Proof.
  apply (lines_are_lines (prints 0 (lit "a" ++ [13; 10; 12] ++ lit "b"))
           {| default_args := [] |} (lit "<>") [] boot
           (ran boot [lit "rg"; lit ".*"] tt)).
  reflexivity.
Defined.

(** ** The count, further *)

(** What [int] sees in an ASCII digit. *)
Lemma digit_char (d : N) :
  d < 10 ->
  let c := 48 + d in
  (c <? 128) = true /\ c_isspace c = false /\ (c =? 43) = false
  /\ (c =? 45) = false /\ (c =? 95) = false /\ c_isdigit c = true
  /\ (c =? 58) = false /\ islinebreak c = false /\ c - 48 = d.
Proof.
  intros H c. unfold c_isspace, c_isdigit, islinebreak.
  repeat match goal with
         | |- context [?a =? ?b] => destruct (N.eqb_spec a b); try lia
         | |- context [?a <=? ?b] => destruct (N.leb_spec a b); try lia
         | |- context [?a <? ?b] => destruct (N.ltb_spec a b); try lia
         end.
  all: cbn [orb andb]; repeat split; try reflexivity; lia.
Qed.

Lemma scan_digit_str :
  forall ds prev acc n,
    forallb (fun d => d <? 10) ds = true ->
    (prev =? 95) = false ->
    scan_digits prev acc n (digit_str ds)
    = Some (fold_left (fun a d => (10 * a + Z.of_N d)%Z) ds acc,
            n + N.of_nat (List.length ds), []).
Proof.
  induction ds as [|d ds IH]; intros prev acc n Hd Hp.
  - cbn. now rewrite Hp, N.add_0_r.
  - cbn [forallb] in Hd. apply andb_prop in Hd as [Hd Hds].
    apply N.ltb_lt in Hd.
    destruct (digit_char d Hd) as [_ [_ [_ [_ [H95 [Hdig [_ [_ Hv]]]]]]]].
    cbn [digit_str map scan_digits]. rewrite H95, Hdig, Hv.
    change (map (fun d0 => 48 + d0) ds) with (digit_str ds).
    rewrite (IH _ _ _ Hds H95). cbn [fold_left List.length].
    rewrite Nat2N.inj_succ. do 3 f_equal. lia.
Qed.

(** [int] reads a decimal numeral as its value. *)
Lemma int_digit_str (ds : list N) :
  numeral ds = true -> int (digit_str ds) = Some (digits_value ds).
Proof.
  unfold numeral. intros H.
  apply andb_prop in H as [H Hmax]. apply andb_prop in H as [Hlen Hd].
  apply negb_true_iff in Hlen.
  assert (Hascii : forallb (fun c => c <? 128) (digit_str ds) = true).
  { clear Hlen Hmax. induction ds as [|d ds IH]; [reflexivity|].
    cbn [forallb] in Hd. apply andb_prop in Hd as [Hd Hds].
    apply N.ltb_lt in Hd. cbn [digit_str map forallb].
    destruct (digit_char d Hd) as [-> _]. now apply IH. }
  unfold int, transform_decimal_and_space. rewrite Hascii.
  destruct ds as [|d ds]; [discriminate Hlen|].
  pose proof Hd as Hd'. cbn [forallb] in Hd'.
  apply andb_prop in Hd' as [Hd0 _]. apply N.ltb_lt in Hd0.
  destruct (digit_char d Hd0) as [_ [Hsp [H43 [H45 [H95 _]]]]].
  unfold long_from_string.
  assert (Hskip : skip_c_space (digit_str (d :: ds)) = digit_str (d :: ds))
    by (cbn [digit_str map skip_c_space]; now rewrite Hsp).
  rewrite Hskip. cbn [digit_str map]. rewrite H43, H45.
  cbn [startswith]. rewrite H95. cbn [andb].
  change (48 + d :: map (fun d0 => 48 + d0) ds) with (digit_str (d :: ds)).
  rewrite (scan_digit_str _ 0 _ _ Hd eq_refl).
  rewrite N.add_0_l, Hlen.
  apply N.leb_le in Hmax.
  destruct (N.ltb_spec max_str_digits (N.of_nat (List.length (d :: ds))));
    [lia | reflexivity].
Qed.

Lemma contains_digit_str (ds : list N) :
  forallb (fun d => d <? 10) ds = true ->
  contains (digit_str ds) (lit ":") = false.
Proof.
  induction ds as [|d ds IH]; [reflexivity|]. cbn [forallb].
  intros H. apply andb_prop in H as [Hd Hds]. apply N.ltb_lt in Hd.
  cbn [digit_str map]. rewrite contains_colon_cons.
  destruct (digit_char d Hd) as [_ [_ [_ [_ [_ [_ [-> _]]]]]]].
  now apply IH.
Qed.

Lemma contains_colon_app (path field : str) :
  contains (path ++ lit ":" ++ field) (lit ":") = true.
Proof.
  induction path as [|c path IH]; [reflexivity|].
  cbn [app]. rewrite contains_colon_cons, IH. apply orb_true_r.
Qed.

(** The last field starts after the last colon, wherever the path has
    colons of its own. *)
Lemma last_field_app (path field : str) :
  contains field (lit ":") = false ->
  last_field (path ++ lit ":" ++ field) = field.
Proof.
  intros H. induction path as [|c path IH].
  - change (last_field (58 :: field) = field). cbn [last_field].
    now rewrite H.
  - cbn [app last_field]. now rewrite contains_colon_app.
Qed.

Lemma numeral_digits (ds : list N) :
  numeral ds = true -> forallb (fun d => d <? 10) ds = true.
Proof.
  unfold numeral. intros H. apply andb_prop in H as [H _].
  now apply andb_prop in H as [_ H].
Qed.

Lemma count_line_record (total : Z) (path : str) (ds : list N) :
  numeral ds = true ->
  count_line total (count_record (path, ds))
  = (total + digits_value ds)%Z.
Proof.
  intros H. unfold count_line, count_record. cbn [fst snd].
  rewrite contains_colon_app, last_split.
  rewrite last_field_app by now apply contains_digit_str, numeral_digits.
  now rewrite int_digit_str.
Qed.

Lemma one_line_record (path : str) (ds : list N) :
  one_line path = true -> numeral ds = true ->
  one_line (count_record (path, ds)) = true.
Proof.
  unfold one_line, count_record. cbn [fst snd].
  intros Hp Hn. apply numeral_digits in Hn. apply negb_true_iff in Hp.
  rewrite !existsb_app, Hp. cbn [orb]. apply negb_true_iff.
  induction ds as [|d ds IH]; [reflexivity|].
  cbn [forallb] in Hn. apply andb_prop in Hn as [Hd Hds].
  apply N.ltb_lt in Hd. cbn [digit_str map existsb].
  destruct (digit_char d Hd) as [_ [_ [_ [_ [_ [_ [_ [-> _]]]]]]]].
  now apply IH.
Qed.

Lemma fold_count_records (rs : list (str * list N)) :
  forallb (fun r => numeral (snd r)) rs = true ->
  forall total,
    fold_left count_line (map count_record rs) total
    = (total + sum_Z (map (fun r => digits_value (snd r)) rs))%Z.
Proof.
  induction rs as [|[path ds] rs IH]; intros H total.
  - cbn. lia.
  - cbn [forallb snd] in H. apply andb_prop in H as [Hn Hrs].
    cbn [map fold_left sum_Z snd].
    rewrite (count_line_record _ _ _ Hn), (IH Hrs). lia.
Qed.

(** X9. A count line made of a path, a colon and a decimal numeral adds
    the numeral's value to the total, whatever the path: colons in the
    path, as in a drive letter, do no harm. *)
Theorem count_line_adds_count (total : Z) (path : str) (ds : list N) :
  numeral ds = true ->
  count_line total (path ++ lit ":" ++ digit_str ds)
  = (total + digits_value ds)%Z.
Proof. apply count_line_record. Qed.

(** X9 at work on a path with a drive letter. *)
Lemma count_line_adds_count_witness :
  count_line 5 (lit "C:\src\a.py:12") = 17%Z.
Proof.
  apply (count_line_adds_count 5 (lit "C:\src\a.py") [1; 2]).
  reflexivity.
Defined.

Section Counting.

Context {World : Type}.
Variable os_run : list str -> World -> outcome CompletedProcess * World.

(** X10. When the tool prints one line per file, each a path without a
    line boundary, a colon and a decimal count, and each ended by a
    line feed, [count] returns the sum of the counts. *)
Theorem count_of_records
  (self : Ripit) (pattern : str) (args : list str) (m m' : machine World)
  (records : list (str * list N)) :
  forallb (fun r => one_line (fst r) && numeral (snd r)) records = true ->
  search os_run self pattern (lit "-c" :: args) m
  = (Returned (unlines (map count_record records)), m') ->
  count os_run self pattern args m
  = (Returned (sum_Z (map (fun r => digits_value (snd r)) records)), m').
Proof.
  intros H Hs. unfold count, bind, ret. rewrite Hs. f_equal. f_equal.
  unfold sum_counts.
  assert (Hn : forallb (fun r => numeral (snd r)) records = true).
  { clear Hs. induction records as [|r rs IH]; [reflexivity|].
    cbn [forallb] in *. apply andb_prop in H as [Hr Hrs].
    apply andb_prop in Hr as [_ Hr]. now rewrite Hr, IH. }
  assert (Hl : forallb one_line (map count_record records) = true).
  { clear Hs Hn. induction records as [|[path ds] rs IH]; [reflexivity|].
    cbn [forallb map fst snd] in *. apply andb_prop in H as [Hr Hrs].
    apply andb_prop in Hr as [Hp Hd].
    now rewrite one_line_record, IH. }
  rewrite (splitlines_unlines _ Hl), (fold_count_records _ Hn). lia.
Qed.

End Counting.

(** X10 at work on two files. *)
Lemma count_of_records_witness :
  count (prints 0 (unlines [lit "src/a.py:3"; lit "lib/b.py:40"]))
    {| default_args := [] |} (lit "<num>") [] boot
  = (Returned 43%Z, ran boot [lit "rg"; lit "\d+"; lit "-c"] tt).
Proof.
  apply (count_of_records (prints 0 _) {| default_args := [] |}
           (lit "<num>") [] boot _
           [(lit "src/a.py", [3]); (lit "lib/b.py", [4; 0])]);
    reflexivity.
Defined.

(** *** The order of the count lines *)

Lemma total_of_count_lines_perm (l l' : list str) :
  Permutation l l' -> total_of_count_lines l = total_of_count_lines l'.
Proof.
  unfold total_of_count_lines.
  induction 1 as [|x l l' _ IH|x y l|l l' l'' _ IH1 _ IH2].
  - reflexivity.
  - cbn [filter]. destruct (contains x (lit ":")); cbn [map sum_Z]; lia.
  - cbn [filter].
    destruct (contains x (lit ":")), (contains y (lit ":"));
      cbn [map sum_Z]; lia.
  - lia.
Qed.

Lemma one_line_perm (l l' : list str) :
  Permutation l l' ->
  forallb one_line l = true -> forallb one_line l' = true.
Proof.
  intros Hp H. apply forallb_forall. intros x Hin.
  rewrite forallb_forall in H. apply H.
  now apply (Permutation_in x (Permutation_sym Hp)).
Qed.

(** X11. The total does not depend on the order in which the tool
    reports the files: two outputs made of the same lines, each ended by
    a line feed, give the same count. *)
Theorem count_any_order (reported reported' : list str) :
  Permutation reported reported' ->
  forallb one_line reported = true ->
  sum_counts (unlines reported) = sum_counts (unlines reported').
Proof.
  intros Hp H. rewrite !sum_counts_eq.
  rewrite (splitlines_unlines _ H).
  rewrite (splitlines_unlines _ (one_line_perm _ _ Hp H)).
  now apply total_of_count_lines_perm.
Qed.

(** X11 at work on two files reported either way round. *)
Lemma count_any_order_witness :
  sum_counts (unlines [lit "a.py:3"; lit "b.py:5"])
  = sum_counts (unlines [lit "b.py:5"; lit "a.py:3"]).
Proof.
  apply (count_any_order [lit "a.py:3"; lit "b.py:5"]
           [lit "b.py:5"; lit "a.py:3"]).
  - apply perm_swap.
  - reflexivity.
Defined.

(** ** The module-level functions and the command line *)

Section Script.

Context {World : Type}.
Variable shutil_which : str -> World -> option str.
Variable os_run : list str -> World -> outcome CompletedProcess * World.

Lemma init_missing (given : option (list str)) (m : machine World) :
  shutil_which rg (world m) = None ->
  __init__ shutil_which given m = (Raised (ImportError install_message), m).
Proof. intros H. unfold __init__, _check_ripgrep, bind. now rewrite H. Qed.

Lemma init_found (m : machine World) (c : char) (path : str) :
  shutil_which rg (world m) = Some (c :: path) ->
  __init__ shutil_which None m = (Returned {| default_args := [] |}, m).
Proof. intros H. unfold __init__, _check_ripgrep, bind, ret. now rewrite H. Qed.

(** X12. Where the tool is not on the path, each of the module-level
    [search], [lines] and [count] raises the dependency-missing error
    with the installation guidance, and no process has been run. *)
Theorem quick_functions_need_tool
  (pattern : str) (args : list str) (m : machine World) :
  shutil_which rg (world m) = None ->
  Quick.search shutil_which os_run pattern args m
  = (Raised (ImportError install_message), m)
  /\ Quick.lines shutil_which os_run pattern args m
     = (Raised (ImportError install_message), m)
  /\ Quick.count shutil_which os_run pattern args m
     = (Raised (ImportError install_message), m).
Proof.
  intros H. unfold Quick.search, Quick.lines, Quick.count, bind.
  now rewrite (init_missing None m H).
Qed.

(** X13. Where the tool is on the path, the module-level [search],
    [lines] and [count] do what the methods do on an instance without
    default options: the argument vector is the tool's name, the
    translated pattern and the caller's arguments, nothing else. *)
Theorem quick_functions_no_defaults
  (pattern : str) (args : list str) (m : machine World)
  (c : char) (path : str) :
  shutil_which rg (world m) = Some (c :: path) ->
  Quick.search shutil_which os_run pattern args m
  = search os_run {| default_args := [] |} pattern args m
  /\ Quick.lines shutil_which os_run pattern args m
     = lines os_run {| default_args := [] |} pattern args m
  /\ Quick.count shutil_which os_run pattern args m
     = count os_run {| default_args := [] |} pattern args m
  /\ spawned (snd (Quick.search shutil_which os_run pattern args m))
     = spawned m ++ [[lit "rg"; _convert_pattern pattern] ++ args].
Proof.
  intros H. unfold Quick.search, Quick.lines, Quick.count, bind.
  rewrite (init_found m c path H). repeat split.
  apply (search_spawned os_run {| default_args := [] |}).
Qed.

(** X14. Run with no pattern, the script writes the usage line to
    standard error and exits with status 1; it writes nothing to
    standard output, does not look for the tool and runs nothing. *)
Theorem main_usage (argv : list str) (m : machine World) :
  (List.length argv < 2)%nat ->
  main_block shutil_which os_run argv m
  = (Exited 1,
     {| to_stdout := [];
        to_stderr :=
          lit "Usage: ripit <pattern> [ripgrep args...]" ++ [LF] |},
     m).
Proof.
  intros H. destruct argv as [|prog [|pattern args]];
    [reflexivity | reflexivity | cbn [List.length] in H; lia].
Qed.

(** X15. Run with a pattern, on a machine that has the tool, the script
    runs the tool once on the translated pattern followed by the
    remaining arguments as they are, writes exactly the tool's standard
    output and exits with status 0, whatever the tool's own exit status
    and error output. *)
Theorem main_forwards
  (prog pattern : str) (args : list str) (m : machine World)
  (c : char) (path : str) (result : CompletedProcess) (w : World) :
  let cmd := [lit "rg"; _convert_pattern pattern] ++ args in
  shutil_which rg (world m) = Some (c :: path) ->
  existsb has_nul cmd = false ->
  os_run cmd (world m) = (Returned result, w) ->
  main_block shutil_which os_run (prog :: pattern :: args) m
  = (Exited 0,
     {| to_stdout := stdout result; to_stderr := [] |},
     ran m cmd w).
Proof.
  intros cmd Hw Hn Hr. unfold main_block, Quick.search, bind.
  rewrite (init_found m c path Hw), search_cases.
  cbn [default_args app]. fold rg.
  change (rg :: _convert_pattern pattern :: args) with cmd.
  now rewrite Hn, Hr.
Qed.

End Script.

(** X12 at work. *)
Lemma quick_functions_need_tool_witness :
  Quick.count which_missing (prints 0 count_sample) (lit "<>") [] boot
  = (Raised (ImportError install_message), boot).
Proof.
  apply (quick_functions_need_tool which_missing (prints 0 count_sample)
           (lit "<>") [] boot).
  reflexivity.
Defined.

(** X13 at work. *)
Lemma quick_functions_no_defaults_witness :
  spawned (snd (Quick.search which_found (prints 0 []) (lit "f(<>)")
                  [lit "-i"; lit "src"] boot))
  = [[lit "rg"; lit "f\(.*\)"; lit "-i"; lit "src"]].
Proof.
  apply (quick_functions_no_defaults which_found (prints 0 [])
           (lit "f(<>)") [lit "-i"; lit "src"] boot 47 (lit "usr/bin/rg")).
  reflexivity.
Defined.

(** X14 at work: only the program's name on the command line. *)
Lemma main_usage_witness :
  main_block which_missing vanished [lit "ripit.py"] boot
  = (Exited 1,
     {| to_stdout := [];
        to_stderr :=
          lit "Usage: ripit <pattern> [ripgrep args...]" ++ [LF] |},
     boot).
Proof.
  apply (main_usage which_missing vanished [lit "ripit.py"] boot).
  cbn. lia.
Defined.

(** X15 at work: the tool finds nothing and exits with 1. *)
Lemma main_forwards_witness :
  main_block which_found (prints 1 [])
    [lit "ripit.py"; lit "class <name>:"; lit "--type"; lit "py"] boot
  = (Exited 0, {| to_stdout := []; to_stderr := [] |},
     ran boot [lit "rg"; lit "class \w+:"; lit "--type"; lit "py"] tt).
Proof.
  apply (main_forwards which_found (prints 1 []) (lit "ripit.py")
           (lit "class <name>:") [lit "--type"; lit "py"] boot
           47 (lit "usr/bin/rg")
           {| returncode := 1; stdout := []; stderr := [] |} tt);
    reflexivity.
Defined.
